(** * pub_scraper: search aggregation and report assembly

    A shallow embedding of [entrezUtils.py] and [pub_scraper.py].

    Python values are modelled as follows.
    - [str] is [string]; the characters are the code points below 256.
    - [int] is [Z].
    - [list] is [list]; [l.append(x)] is [l ++ [x]].
    - [OrderedDict] is an association list in insertion order, with
      Python's assignment rule (module [OrderedDict]).
    - The remote services ([Entrez.esearch]/[Entrez.read], the
      [PubMedLookup] and [Publication] constructors of the
      [pubmed_lookup] package) are not part of the repository. They are
      Section variables acting on an abstract [World]; each call either
      returns a value or raises.
    - Code that calls them runs in the monad [Py], which threads the
      world, the module global [Entrez.email] and a chronological trace
      of the remote calls of the report pipeline, and propagates
      exceptions.
    - Code without remote calls that can raise returns [PyErr + A].
    - A value parsed by [Entrez.read] is a [pyval]: a string, a list or
      a dictionary, each with its optional XML attributes. *)

From Stdlib Require Import String Ascii List ZArith Lia Bool Arith.
From Stdlib Require Import DecimalString.
Import ListNotations.
Open Scope string_scope.
Open Scope list_scope.

(** String concatenation, Python's [+] on [str]. *)
Infix "+++" := String.append (right associativity, at level 60).

(** ** Python string primitives *)

Module PyStr.

Definition nl : string := String (ascii_of_nat 10) EmptyString.
Definition dq : string := String (ascii_of_nat 34) EmptyString.

(** [str.isspace] on one character: the code points below 256 that
    Python 3 treats as whitespace. *)
Definition isspace (c : ascii) : bool :=
  let n := nat_of_ascii c in
  (((9 <=? n) && (n <=? 13)) || ((28 <=? n) && (n <=? 32))
   || (n =? 133) || (n =? 160))%nat.

(** [s.split()] with no argument: the maximal runs of characters that
    are not whitespace, in order; no empty word is produced. *)
Fixpoint split (s : string) : list string :=
  match s with
  | EmptyString => []
  | String c s' =>
      if isspace c then split s'
      else
        match s' with
        | EmptyString => [String c EmptyString]
        | String d _ =>
            if isspace d then String c EmptyString :: split s'
            else
              match split s' with
              | w :: ws => String c w :: ws
              | [] => [String c EmptyString]
              end
        end
  end.

(** [sep.join(l)] *)
Definition join (sep : string) (l : list string) : string :=
  String.concat sep l.

(** [template.format(a1, ..., an)] for templates whose only replacement
    fields are the auto-numbered [{}]. Every call in the source passes
    as many arguments as its template has fields; a field without an
    argument (an IndexError in Python) is left empty here. *)
Fixpoint format (template : string) (args : list string) : string :=
  match template with
  | EmptyString => EmptyString
  | String "{" (String "}" rest) =>
      match args with
      | a :: args' => a +++ format rest args'
      | [] => format rest []
      end
  | String c rest => String c (format rest args)
  end.

(** ['{}'.format(n)] for an [int]: its decimal numeral. *)
Definition str_of_int (n : Z) : string :=
  NilZero.string_of_int (Z.to_int n).

(** No character of [s] is whitespace. *)
Fixpoint no_space (s : string) : bool :=
  match s with
  | EmptyString => true
  | String c s' => negb (isspace c) && no_space s'
  end.

(** [s] with its whitespace characters removed. *)
Fixpoint strip_spaces (s : string) : string :=
  match s with
  | EmptyString => EmptyString
  | String c s' => if isspace c then strip_spaces s' else String c (strip_spaces s')
  end.

(** [s[0]]; [None] stands for the IndexError on an empty string. *)
Definition first (s : string) : option ascii :=
  match s with
  | EmptyString => None
  | String c _ => Some c
  end.

(** [s.lstrip()] *)
Fixpoint lstrip (s : string) : string :=
  match s with
  | EmptyString => EmptyString
  | String c s' => if isspace c then lstrip s' else s
  end.

(** [s.rstrip()] *)
Fixpoint rstrip (s : string) : string :=
  match s with
  | EmptyString => EmptyString
  | String c s' =>
      match rstrip s' with
      | EmptyString => if isspace c then EmptyString else String c EmptyString
      | r => String c r
      end
  end.

(** [s.strip()] *)
Definition strip (s : string) : string := rstrip (lstrip s).

(** [s.split(sep)] for a separator of one character: the pieces between
    the occurrences of [sep], empty pieces included. *)
Fixpoint split_on (sep : ascii) (s : string) : list string :=
  match s with
  | EmptyString => [EmptyString]
  | String c s' =>
      if Ascii.eqb c sep then EmptyString :: split_on sep s'
      else
        match split_on sep s' with
        | w :: ws => String c w :: ws
        | [] => [String c EmptyString]
        end
  end.

(** [s[:-1]] *)
Fixpoint drop_last (s : string) : string :=
  match s with
  | EmptyString => EmptyString
  | String c s' =>
      match s' with
      | EmptyString => EmptyString
      | String _ _ => String c (drop_last s')
      end
  end.

(** [s[1:-1]] *)
Definition inner (s : string) : string :=
  match s with
  | EmptyString => EmptyString
  | String _ s' => drop_last s'
  end.

(** The number of occurrences of the character [c] in [s]. *)
Fixpoint count_char (c : ascii) (s : string) : nat :=
  match s with
  | EmptyString => 0
  | String d s' => (if Ascii.eqb d c then 1 else 0) + count_char c s'
  end.

(** Every character of [s] is whitespace. *)
Fixpoint all_space (s : string) : bool :=
  match s with
  | EmptyString => true
  | String c s' => isspace c && all_space s'
  end.

End PyStr.

(** ** collections.OrderedDict *)

Module OrderedDict.

Section Ops.
Context {V : Type}.

Definition t := list (string * V).

Definition empty : t := [].

(** [d[k] = v]: an existing key keeps its position and takes the
    new value; a new key goes to the end. *)
Fixpoint set (d : t) (k : string) (v : V) : t :=
  match d with
  | [] => [(k, v)]
  | (k', v') :: d' =>
      if String.eqb k' k then (k', v) :: d'
      else (k', v') :: set d' k v
  end.

(** [d.items()] *)
Definition items (d : t) : list (string * V) := d.

(** [list(d.keys())] *)
Definition keys (d : t) : list string := map fst d.

(** [d.get(k)] *)
Fixpoint get (d : t) (k : string) : option V :=
  match d with
  | [] => None
  | (k', v') :: d' => if String.eqb k' k then Some v' else get d' k
  end.

(** [OrderedDict(pairs)] *)
Definition of_pairs (pairs : list (string * V)) : t :=
  fold_left (fun d kv => set d (fst kv) (snd kv)) pairs empty.

End Ops.

Arguments t : clear implicits.

End OrderedDict.

(** ** Data *)

(** A [pubmed_lookup.Publication] as the report reads it. Each attribute
    is held as the text that ['{}'.format] gives for it. *)
Record Publication := mkPublication {
  url : string;
  title : string;
  journal : string;
  authors : string
}.

(** The keyword arguments of one [Entrez.esearch] call. *)
Record search_args := mkSearchArgs {
  db : string;
  sort : string;
  retmode : string;
  retmax : Z;
  term : string;
  reldate : Z;
  datetype : string
}.

(** The values [main] reads from the parsed settings file;
    [journal_topic_dict] is the result of [parse_journal_topics]. *)
Record settings := mkSettings {
  entrez_email_address : string;
  send_to_email_address : list string;
  search_keywords : list string;
  search_authors : list string;
  journal_topic_dict : OrderedDict.t (list string);
  pub_days_ago : Z;
  sender_email : string;
  sender_pswd : string
}.

(** The message [main] hands to the mail transport. *)
Record message := mkMessage {
  msg_subject : string;
  msg_To : string;
  msg_From : string;
  msg_body : string
}.

Definition TermResults := OrderedDict.t (list Publication).
Definition CategoryResults := OrderedDict.t TermResults.

(** The built-in exceptions that the code without remote calls can
    raise. *)
Inductive PyErr :=
| IndexError
| KeyError
| ValueError
| TypeError
| AttributeError.

(** A value of a record parsed by [Entrez.read]: a string, a list or a
    dictionary element. [attributes] holds the XML attributes of the
    element; it is [None] for an element without the [attributes]
    attribute and for a plain [str]. *)
#[warnings="-register-all"]
Inductive pyval :=
| PStr (s : string) (attributes : option (list (string * string)))
| PList (l : list pyval) (attributes : option (list (string * string)))
| PDict (d : list (string * pyval))
    (attributes : option (list (string * string))).

(** The keyword arguments of one [Entrez.efetch] call. *)
Record fetch_args := mkFetchArgs {
  fetch_id : string;
  fetch_db : string;
  fetch_retmode : string;
  fetch_rettype : string;
  fetch_retmax : Z
}.

(** What a run of [main] leaves behind. *)
Record run := mkRun {
  all_results_dict : CategoryResults;
  run_total_hits : Z;
  run_message : message
}.

(** ** A scripted instance of the remote services

    The world counts the remote calls made so far. Searching for the
    keyword CRISPR finds the identifiers 111 and 222; searching for the
    author "down" fails; any other search returns the call count as its
    only identifier. Identifier 999 has no record; the record of 222
    cannot be turned into a publication. *)

Module Demo.

Definition World := nat.
Definition Exn := string.
Definition Lookup := string.

Definition esearch (a : search_args) (w : World)
  : (Exn + list string) * World :=
  (if String.eqb (term a) "CRISPR[Title/Abstract]" then inr ["111"; "222"]
   else if String.eqb (term a) "down[Author]" then inl "HTTP Error 500"
   else inr [PyStr.str_of_int (Z.of_nat w)],
   S w).

Definition lookup (ID credentials : string) (w : World)
  : (Exn + Lookup) * World :=
  (if String.eqb ID "999" then inl "no record" else inr ID, S w).

Definition pub_T1 : Publication :=
  mkPublication "dx.doi.org/10.1/x" "T1" "J1" "['Smith A']".

Definition publication (l : Lookup) (w : World)
  : (Exn + Publication) * World :=
  (if String.eqb l "222" then inl "bad record"
   else if String.eqb l "111" then inr pub_T1
   else inr (mkPublication ("dx.doi.org/" +++ l) ("title " +++ l) "J" "[]"),
   S w).

Definition cfg (keywords authors : list string)
    (jt : OrderedDict.t (list string)) : settings :=
  mkSettings "me@example.org" ["you@example.org"] keywords authors jt 7
    "bot@example.org" "secret".

(** A [Publication] that can never be constructed. *)
Definition publication_fails (l : Lookup) (w : World)
  : (Exn + Publication) * World :=
  (inl "bad record", S w).

(** [str] of a list or of a dictionary element. *)
Definition repr (v : pyval) : string := "<element>".

Definition elocation (kind text : string) : pyval :=
  PStr text (Some [("EIdType", kind)]).

Definition author (last initials : string) : pyval :=
  PDict [("LastName", PStr last None); ("Initials", PStr initials None)] None.

(** An article with two authors and four locations, two of type doi. *)
Definition article : pyval :=
  PDict
    [("ArticleTitle", PStr "T1" None);
     ("AuthorList", PList [author "Smith" "A"; author "Jones" "BC"] None);
     ("ELocationID",
      PList [elocation "pii" "S1"; elocation "doi" "10.1/x";
             elocation "doi" "10.2/y"; elocation "pii" "S2"] None)]
    None.

Definition record : pyval :=
  PDict
    [("PubmedArticle",
      PList [PDict [("MedlineCitation", PDict [("Article", article)] None)]
               None] None)]
    None.

(** Two journals with their topics. *)
Definition entries : list (string * list string) :=
  [("Nature", ["aging"; "longevity"]); ("Cell", ["stem cells"])].

(** The identifiers found for two keywords. *)
Definition found : OrderedDict.t (list string) :=
  [("CRISPR", ["111"; "222"]); ("aging", ["333"])].

(** A settings file with one block of two keywords. *)
Definition settings_file : list string :=
  ["# searches" +++ PyStr.nl;
   "$ search_keywords" +++ PyStr.nl;
   "CRISPR" +++ PyStr.nl;
   "aging" +++ PyStr.nl;
   PyStr.nl;
   "$ pub_days_ago" +++ PyStr.nl;
   "7" +++ PyStr.nl].

(** The date of the run, as [main] formats it. *)
Definition today : string := "2017/10/11".

(** One journal with two topics. *)
Definition nature : OrderedDict.t (list string) :=
  [("Nature", ["aging"; "longevity"])].

End Demo.

(** ** The interpreter monad and the remote services *)

Section Model.

Set Default Proof Using "Type".

Variable World : Type.
Variable Exn : Type.
Variable Lookup : Type.

(** [Entrez.read(Entrez.esearch(...))['IdList']] *)
Variable Entrez_esearch : search_args -> World -> (Exn + list string) * World.
(** [PubMedLookup(ID, entrez_email)] *)
Variable PubMedLookup : string -> string -> World -> (Exn + Lookup) * World.
(** [Publication(lookup)] *)
Variable Publication_of : Lookup -> World -> (Exn + Publication) * World.
(** [Entrez.read(Entrez.efetch(...))] *)
Variable Entrez_efetch : fetch_args -> World -> (Exn + pyval) * World.
(** [str(v)] for a value [v] that is a list or a dictionary *)
Variable repr : pyval -> string.

Inductive event :=
| Esearch (a : search_args) (r : Exn + list string)
| Elookup (ID credentials : string) (r : Exn + Lookup)
| Epublication (l : Lookup) (r : Exn + Publication).

Record state := mkState {
  world : World;
  Entrez_email : option string;
  trace : list event
}.

Definition Py (A : Type) : Type := state -> (Exn + A) * state.

Definition ret {A} (a : A) : Py A := fun s => (inr a, s).

Definition bind {A B} (m : Py A) (k : A -> Py B) : Py B :=
  fun s =>
    match m s with
    | (inl e, s') => (inl e, s')
    | (inr a, s') => k a s'
    end.

(** [try: body  except: handler] with a bare [except]. *)
Definition try_except {A} (body handler : Py A) : Py A :=
  fun s =>
    match body s with
    | (inl _, s') => handler s'
    | (inr a, s') => (inr a, s')
    end.

(** One call of a remote service, recorded in the trace. *)
Definition remote {A} (call : World -> (Exn + A) * World)
    (ev : Exn + A -> event) : Py A :=
  fun s =>
    let (r, w') := call (world s) in
    (r, mkState w' (Entrez_email s) (trace s ++ [ev r])).

(** [Entrez.email = e] *)
Definition set_Entrez_email (e : string) : Py unit :=
  fun s => (inr tt, mkState (world s) (Some e) (trace s)).

(** [for x in xs: acc = body(x, acc)] *)
Fixpoint for_in {A S} (xs : list A) (body : A -> S -> Py S) (acc : S)
  : Py S :=
  match xs with
  | [] => ret acc
  | x :: xs' => bind (body x acc) (for_in xs' body)
  end.

Notation "x <- m ;; k" := (bind m (fun x => k))
  (at level 61, m at next level, right associativity).
Notation "m ;;; k" := (bind m (fun _ => k))
  (at level 61, right associativity).

(** ** entrezUtils.py *)

Definition entrezSearch (term : string) (reldate : Z)
    (db sort retmode : string) (retmax : Z) (datetype : string)
  : Py (list string) :=
  let a := mkSearchArgs db sort retmode retmax term reldate datetype in
  remote (Entrez_esearch a) (Esearch a).

Definition search_by_keywords (keywords : list string) (reldate : Z)
    (database sort_type : string) (retmax : Z) (datetype : string)
  : Py (OrderedDict.t (list string)) :=
  for_in keywords
    (fun term results_by_term =>
       let formatted_term :=
         (PyStr.join "+" (PyStr.split term) +++ "[Title/Abstract]") in
       ids <- entrezSearch formatted_term reldate database sort_type
                "xml" retmax datetype ;;
       ret (OrderedDict.set results_by_term term ids))
    OrderedDict.empty.

Definition search_by_authors (authors : list string) (reldate : Z)
    (database sort_type : string) (retmax : Z) (datetype : string)
  : Py (OrderedDict.t (list string)) :=
  for_in authors
    (fun term results_by_term =>
       let formatted_term := (term +++ "[Author]") in
       ids <- entrezSearch formatted_term reldate database sort_type
                "xml" retmax datetype ;;
       ret (OrderedDict.set results_by_term term ids))
    OrderedDict.empty.

Definition search_by_journal_and_topic
    (journal_topic_dict : OrderedDict.t (list string)) (reldate : Z)
    (database sort_type : string) (retmax : Z) (datetype : string)
  : Py (OrderedDict.t (list string)) :=
  for_in (OrderedDict.items journal_topic_dict)
    (fun '(journal, topic_list) results_by_term =>
       let formatted_term :=
         (journal +++ PyStr.format "[Journal] AND ({})"
                       [PyStr.join " OR " topic_list]) in
       ids <- entrezSearch formatted_term reldate database sort_type
                "xml" retmax datetype ;;
       ret (OrderedDict.set results_by_term formatted_term ids))
    OrderedDict.empty.

Definition fetch_pubs_from_ID_list (ID_list : list string)
    (entrez_email : string) : Py (list Publication) :=
  for_in ID_list
    (fun ID result_list =>
       lookup <- remote (PubMedLookup ID entrez_email)
                   (Elookup ID entrez_email) ;;
       try_except
         (pub <- remote (Publication_of lookup) (Epublication lookup) ;;
          ret (result_list ++ [pub]))
         (ret result_list))
    [].

(** [entrezFetch] is not part of the report pipeline: its call is not
    recorded in the trace. *)
Definition entrezFetch (ID : string) (db retmode rettype : string)
    (retmax : Z) : Py pyval :=
  fun s =>
    let (r, w') :=
      Entrez_efetch (mkFetchArgs ID db retmode rettype retmax) (world s) in
    (r, mkState w' (Entrez_email s) (trace s)).

Definition fetch_data_for_ID_list (ID_list : list string)
    (database retmode rettype : string) (retmax : Z) : Py (list pyval) :=
  for_in ID_list
    (fun ID result_list =>
       r <- entrezFetch ID database retmode rettype retmax ;;
       ret (result_list ++ [r]))
    [].

(** *** Code without remote calls *)

Definition ebind {A B} (m : PyErr + A) (k : A -> PyErr + B) : PyErr + B :=
  match m with
  | inl e => inl e
  | inr a => k a
  end.

Notation "x <~ m ;; k" := (ebind m (fun x => k))
  (at level 61, m at next level, right associativity).

(** [for x in xs: acc = body(x, acc)], where the body can raise. *)
Fixpoint for_each {A S} (xs : list A) (body : A -> S -> PyErr + S) (acc : S)
  : PyErr + S :=
  match xs with
  | [] => inr acc
  | x :: xs' => ebind (body x acc) (for_each xs' body)
  end.

(** [v[k]] for a string [k]. *)
Definition getitem (v : pyval) (k : string) : PyErr + pyval :=
  match v with
  | PDict d _ =>
      match OrderedDict.get d k with
      | Some x => inr x
      | None => inl KeyError
      end
  | PList _ _ => inl TypeError
  | PStr _ _ => inl TypeError
  end.

(** [v[0]]. The keys of a dictionary are strings, so [0] is not one. *)
Definition getitem0 (v : pyval) : PyErr + pyval :=
  match v with
  | PList (x :: _) _ => inr x
  | PList [] _ => inl IndexError
  | PStr (String c _) _ => inr (PStr (String c EmptyString) None)
  | PStr EmptyString _ => inl IndexError
  | PDict _ _ => inl KeyError
  end.

(** The values that [for x in v] goes through: the elements of a list,
    the characters of a string, the keys of a dictionary. *)
Definition iterate (v : pyval) : list pyval :=
  match v with
  | PList l _ => l
  | PStr s _ =>
      map (fun c => PStr (String c EmptyString) None) (list_ascii_of_string s)
  | PDict d _ => map (fun kv => PStr (fst kv) None) d
  end.

(** [v.attributes[k]] *)
Definition attribute (v : pyval) (k : string) : PyErr + string :=
  let attributes :=
    match v with
    | PStr _ a => a
    | PList _ a => a
    | PDict _ a => a
    end in
  match attributes with
  | None => inl AttributeError
  | Some a =>
      match OrderedDict.get a k with
      | Some x => inr x
      | None => inl KeyError
      end
  end.

(** [str(v)] *)
Definition str (v : pyval) : string :=
  match v with
  | PStr s _ => s
  | _ => repr v
  end.

(** [v + s] for a string [s]: only a string can be added to a string. *)
Definition add_str (v : pyval) (s : string) : PyErr + string :=
  match v with
  | PStr a _ => inr (a +++ s)
  | _ => inl TypeError
  end.

(** [s + v] for a string [s]. *)
Definition str_add (s : string) (v : pyval) : PyErr + string :=
  match v with
  | PStr a _ => inr (s +++ a)
  | _ => inl TypeError
  end.

Definition get_title (data_record : pyval) : PyErr + pyval :=
  v <~ getitem data_record "PubmedArticle" ;;
  v <~ getitem0 v ;;
  v <~ getitem v "MedlineCitation" ;;
  v <~ getitem v "Article" ;;
  getitem v "ArticleTitle".

Definition get_journal (data_record : pyval) : PyErr + pyval :=
  v <~ getitem data_record "PubmedArticle" ;;
  v <~ getitem0 v ;;
  v <~ getitem v "MedlineCitation" ;;
  v <~ getitem v "Article" ;;
  v <~ getitem v "Journal" ;;
  getitem v "Title".

Definition get_authors (data_record : pyval) : PyErr + list string :=
  let author_list : list string := [] in
  v <~ getitem data_record "PubmedArticle" ;;
  v <~ getitem0 v ;;
  v <~ getitem v "MedlineCitation" ;;
  v <~ getitem v "Article" ;;
  v <~ getitem v "AuthorList" ;;
  for_each (iterate v)
    (fun author author_list =>
       last <~ getitem author "LastName" ;;
       left <~ add_str last " " ;;
       initials <~ getitem author "Initials" ;;
       name <~ str_add left initials ;;
       inr (author_list ++ [name]))
    author_list.

Definition get_url (data_record : pyval) : PyErr + string :=
  let url_tail := EmptyString in
  v <~ getitem data_record "PubmedArticle" ;;
  v <~ getitem0 v ;;
  v <~ getitem v "MedlineCitation" ;;
  v <~ getitem v "Article" ;;
  v <~ getitem v "ELocationID" ;;
  url_tail <~ for_each (iterate v)
                (fun elocation url_tail =>
                   t <~ attribute elocation "EIdType" ;;
                   if String.eqb t "doi" then inr (str elocation)
                   else inr url_tail)
                url_tail ;;
  inr ("dx.doi.org/" +++ url_tail).

Definition get_abstract (data_record : pyval) : PyErr + pyval :=
  v <~ getitem data_record "PubmedArticle" ;;
  v <~ getitem0 v ;;
  v <~ getitem v "MedlineCitation" ;;
  v <~ getitem v "Article" ;;
  v <~ getitem v "Abstract" ;;
  v <~ getitem v "AbstractText" ;;
  getitem0 v.

(** ** pub_scraper.py *)

(** Where [parse_search_file] stands in the file: in the [for] loop over
    the lines, or in the [while] loop that reads the lines of the
    setting [key]. *)
Inductive cursor :=
| InFile
| InBlock (key : string).

(** One line of the [for] loop. *)
Definition file_line (line : string)
    (settings_dict : OrderedDict.t (list string))
  : PyErr + (cursor * OrderedDict.t (list string)) :=
  match PyStr.first line with
  | None => inl IndexError
  | Some c =>
      if Ascii.eqb c "#" then inr (InFile, settings_dict)
      else if Ascii.eqb c "$" then
        match nth_error (PyStr.split (PyStr.strip line)) 1 with
        | None => inl IndexError
        | Some key => inr (InBlock key, OrderedDict.set settings_dict key [])
        end
      else inr (InFile, settings_dict)
  end.

(** One round of the [while] loop, [line] being
    [f.readline().strip()]. No branch raises EOFError, so the handler of
    the source is not entered. *)
Definition block_line (key line : string)
    (settings_dict : OrderedDict.t (list string))
  : PyErr + (cursor * OrderedDict.t (list string)) :=
  match PyStr.first line with
  | None => inl IndexError
  | Some c =>
      if Ascii.eqb c "#" then inr (InBlock key, settings_dict)
      else if String.eqb line EmptyString then inr (InFile, settings_dict)
      else
        match OrderedDict.get settings_dict key with
        | None => inl KeyError
        | Some l =>
            inr (InBlock key, OrderedDict.set settings_dict key (l ++ [line]))
        end
  end.

(** The two loops share the position in the file, as the iterator and
    [readline] of a Python 3 text file do. [lines] are the lines not
    read yet, each as the file gives it, with its line end. At the end
    of the file the [for] loop ends, and [f.readline()] returns the
    empty string, on which [line[0]] raises. *)
Fixpoint read_settings (lines : list string) (at_ : cursor)
    (settings_dict : OrderedDict.t (list string))
  : PyErr + OrderedDict.t (list string) :=
  match lines with
  | [] =>
      match at_ with
      | InFile => inr settings_dict
      | InBlock key => inl IndexError
      end
  | line :: rest =>
      next <~ match at_ with
              | InFile => file_line line settings_dict
              | InBlock key => block_line key (PyStr.strip line) settings_dict
              end ;;
      read_settings rest (fst next) (snd next)
  end.

(** [parse_search_file] on the lines of the file. *)
Definition parse_search_file (lines : list string)
  : PyErr + OrderedDict.t (list string) :=
  read_settings lines InFile OrderedDict.empty.

Definition parse_journal_topics (journal_topic_list : list string)
  : PyErr + OrderedDict.t (list string) :=
  for_each journal_topic_list
    (fun jt_list journal_topic_dict =>
       match PyStr.split_on "=" jt_list with
       | [journal; topic_list] =>
           inr (OrderedDict.set journal_topic_dict journal
                  (PyStr.split_on ","
                     (PyStr.inner (PyStr.strip topic_list))))
       | _ => inl ValueError
       end)
    OrderedDict.empty.


Definition build_result_dict (search_dict : OrderedDict.t (list string))
    (entrez_email : string) : Py TermResults :=
  for_in (OrderedDict.items search_dict)
    (fun '(key, UID_list) data_dict =>
       pubs <- fetch_pubs_from_ID_list UID_list entrez_email ;;
       ret (OrderedDict.set data_dict key pubs))
    OrderedDict.empty.

(** The hit counter of [main]: the nested loop over
    [all_results_dict.items()] and [result_dict.items()]. *)
Definition total_hits (all_results_dict : CategoryResults) : Z :=
  fold_left
    (fun total_hits '(group, result_dict) =>
       fold_left
         (fun total_hits '(term, pub_list) =>
            (total_hits + Z.of_nat (length pub_list))%Z)
         (OrderedDict.items result_dict) total_hits)
    (OrderedDict.items all_results_dict) 0%Z.

Definition html_header : string :=
  "    <html>" +++ PyStr.nl +++
  "    <body>" +++ PyStr.nl +++
  "    <h1><b>Pub Scraper Report</b></h1>" +++ PyStr.nl +++
  "    <br/>" +++ PyStr.nl +++
  "    ".

Definition html_tail : string :=
  "    </body>" +++ PyStr.nl +++
  "    </html>" +++ PyStr.nl +++
  "    ".

Definition section_template : string :=
  "<h2 style=" +++ PyStr.dq +++ "color:red;" +++ PyStr.dq +++ ">{}</h2>" +++ PyStr.nl.
Definition term_template : string := "<h4>{}</h4>" +++ PyStr.nl.
Definition no_results_template : string :=
  "<p>No results for '{}' in the last {} days</p>" +++ PyStr.nl.
Definition title_template : string :=
  "<p><a href=" +++ PyStr.dq +++ "{}" +++ PyStr.dq +++ "> <b>{}</b> </a></p>" +++ PyStr.nl.
Definition journal_template : string := "<p><i>{}</i></p>" +++ PyStr.nl.
Definition authors_template : string := "<p>{}</p>" +++ PyStr.nl.

(** The pieces appended to [report_subsection] for one term. The
    [continue] of the source skips the publication loop, which does
    nothing on an empty list. *)
Definition append_term (report_subsection : list string)
    (term : string) (pub_list : list Publication) (pub_days_ago : Z)
  : list string :=
  let report_subsection :=
    report_subsection ++ [PyStr.format term_template [term]] in
  if (Z.of_nat (length pub_list) <? 1)%Z then
    report_subsection ++
      [PyStr.format no_results_template
         [term; PyStr.str_of_int pub_days_ago]]
  else
    fold_left
      (fun report_subsection pub =>
         let report_subsection :=
           report_subsection ++
             [PyStr.format title_template [url pub; title pub]] in
         let report_subsection :=
           report_subsection ++
             [PyStr.format journal_template [journal pub]] in
         report_subsection ++
           [PyStr.format authors_template [authors pub]])
      pub_list report_subsection.

(** The list [report_subsection] at the end of the inner loop. *)
Definition report_subsection (section : string)
    (result_dict : TermResults) (pub_days_ago : Z) : list string :=
  fold_left
    (fun report_subsection '(term, pub_list) =>
       append_term report_subsection term pub_list pub_days_ago)
    (OrderedDict.items result_dict)
    [PyStr.format section_template [section]].

(** The list [report_sections] at the end of the outer loop. *)
Definition report_sections (all_results_dict : CategoryResults)
    (pub_days_ago : Z) : list string :=
  fold_left
    (fun report_sections '(section, result_dict) =>
       report_sections ++
         [PyStr.join "" (report_subsection section result_dict pub_days_ago)])
    (OrderedDict.items all_results_dict) [].

Definition construct_email_body (all_results_dict : CategoryResults)
    (pub_days_ago : Z) : string :=
  let html_body := PyStr.join "<br/>" (report_sections all_results_dict pub_days_ago) in
  PyStr.join PyStr.nl [html_header; html_body; html_tail].

(** [main] from the parsed settings to the message handed to the mail
    transport; [today] is [date.today().strftime(date_format)]. The
    model returns the locals [all_results_dict], [total_hits] and
    [message]. *)
Definition main (cfg : settings) (today : string) : Py run :=
  let database := "pubmed" in
  let sort_type := "Most Recent" in
  let message_subject := PyStr.format "pub scraper report - {}" [today] in
  let entrez_email := entrez_email_address cfg in
  let send_to_emails := send_to_email_address cfg in
  let pub_days_ago := pub_days_ago cfg in
  set_Entrez_email entrez_email ;;;
  keyword_results <- search_by_keywords (search_keywords cfg)
                       pub_days_ago database sort_type 20 "edat" ;;
  author_results <- search_by_authors (search_authors cfg)
                      pub_days_ago database sort_type 20 "edat" ;;
  journal_topic_results <- search_by_journal_and_topic
                             (journal_topic_dict cfg)
                             pub_days_ago database sort_type 20 "edat" ;;
  keyword_publications <- build_result_dict keyword_results database ;;
  author_publications <- build_result_dict author_results database ;;
  journal_topic_publications <-
    build_result_dict journal_topic_results database ;;
  let all_results_dict :=
    OrderedDict.of_pairs
      [("Keyword Searches", keyword_publications);
       ("Author Searches", author_publications);
       ("Journal and Topic Searches", journal_topic_publications)] in
  let total_hits := total_hits all_results_dict in
  ret (mkRun all_results_dict total_hits
         (mkMessage
            (message_subject +++
               PyStr.format " ({} hits)" [PyStr.str_of_int total_hits])
            (PyStr.join "," send_to_emails)
            (sender_email cfg)
            (construct_email_body all_results_dict pub_days_ago))).

(** ** Reference definitions, in the words of the specification *)

(** The three variants of a search term. *)
Inductive SearchTerm :=
| Keyword (text : string)
| Author (name : string)
| JournalTopic (journal : string) (topics : list string).

(** The query template of each variant. *)
Definition expand (t : SearchTerm) : string :=
  match t with
  | Keyword text => PyStr.join "+" (PyStr.split text) +++ "[Title/Abstract]"
  | Author name => name +++ "[Author]"
  | JournalTopic journal topics =>
      journal +++ "[Journal] AND (" +++ PyStr.join " OR " topics +++ ")"
  end.

(** The key under which the results of a term are stored. *)
Definition term_key (t : SearchTerm) : string :=
  match t with
  | Keyword text => text
  | Author name => name
  | JournalTopic _ _ => expand t
  end.

Definition journal_topic_terms (d : OrderedDict.t (list string))
  : list SearchTerm :=
  map (fun '(journal, topics) => JournalTopic journal topics)
    (OrderedDict.items d).

(** The arguments of the search issued for a query. *)
Definition query_args (reldate : Z) (database sort_type : string)
    (retmax : Z) (datetype : string) (q : string) : search_args :=
  mkSearchArgs database sort_type "xml" retmax q reldate datetype.

(** The distinct elements of a list, each at its first occurrence. *)
Fixpoint first_occurrences (l : list string) : list string :=
  match l with
  | [] => []
  | x :: l' =>
      x :: filter (fun y => negb (String.eqb x y)) (first_occurrences l')
  end.

(** The publications of the lookups that succeeded, in order. *)
Definition successes (rs : list (Exn + Publication)) : list Publication :=
  flat_map (fun r => match r with inr p => [p] | inl _ => [] end) rs.

(** The remote calls of one identifier whose [PubMedLookup] returned
    [l] and whose [Publication] construction ended as [r]. *)
Definition lookup_events (credentials : string)
    (x : string * (Lookup * (Exn + Publication))) : list event :=
  let '(ID, (l, r)) := x in
  [Elookup ID credentials (inr l); Epublication l r].

(** The three lines of one publication entry. *)
Definition entry_block (pub : Publication) : list string :=
  [ "<p><a href=" +++ PyStr.dq +++ url pub +++ PyStr.dq +++ "> <b>"
      +++ title pub +++ "</b> </a></p>" +++ PyStr.nl;
    "<p><i>" +++ journal pub +++ "</i></p>" +++ PyStr.nl;
    "<p>" +++ authors pub +++ "</p>" +++ PyStr.nl ].

Definition term_heading (term : string) : string :=
  "<h4>" +++ term +++ "</h4>" +++ PyStr.nl.

Definition no_results_notice (term : string) (N : Z) : string :=
  "<p>No results for '" +++ term +++ "' in the last "
    +++ PyStr.str_of_int N +++ " days</p>" +++ PyStr.nl.

Definition section_heading (section : string) : string :=
  "<h2 style=" +++ PyStr.dq +++ "color:red;" +++ PyStr.dq +++ ">"
    +++ section +++ "</h2>" +++ PyStr.nl.

(** One subsection: the term heading, then the notice or the entries. *)
Definition term_pieces (N : Z) (x : string * list Publication)
  : list string :=
  let '(term, pubs) := x in
  term_heading term ::
    match pubs with
    | [] => [no_results_notice term N]
    | _ => concat (map entry_block pubs)
    end.

(** One section: the category heading, then its subsections. *)
Definition section_pieces (N : Z) (x : string * TermResults)
  : list string :=
  let '(section, result_dict) := x in
  section_heading section :: concat (map (term_pieces N) result_dict).

Definition render_section (N : Z) (x : string * TermResults) : string :=
  PyStr.join "" (section_pieces N x).

(** The publication entries of a whole result structure, in order. *)
Definition entry_blocks (d : CategoryResults) : list (list string) :=
  concat (map (fun x : string * TermResults =>
                 concat (map (fun y : string * list Publication =>
                                map entry_block (snd y)) (snd x))) d).

(** [x] occurs in [s]. *)
Definition occurs_in (x s : string) : Prop :=
  exists pre post, s = pre +++ x +++ post.

(** ** Auxiliary definitions *)

(** Membership in a list of strings. *)
Definition mem (k : string) (l : list string) : bool :=
  existsb (String.eqb k) l.

(** Storing a list of pairs one after the other, as the loops do. *)
Definition set_all {V} (kvs : list (string * V)) (d : OrderedDict.t V)
  : OrderedDict.t V :=
  fold_left (fun d kv => OrderedDict.set d (fst kv) (snd kv)) kvs d.

(** The body shared by the three search loops: the search for the
    query [fmt x] and the assignment of its result to the key [key x]. *)
Definition search_step {A : Type} (fmt key : A -> string) (reldate : Z)
    (database sort_type : string) (retmax : Z) (datetype : string)
    (x : A) (d : OrderedDict.t (list string))
  : Py (OrderedDict.t (list string)) :=
  bind (entrezSearch (fmt x) reldate database sort_type "xml" retmax
          datetype)
    (fun ids => ret (OrderedDict.set d (key x) ids)).

(** The searches of the items [xs] with the outcomes [rs], as the trace
    records them. *)
Definition search_events {A : Type} (fmt : A -> string) (reldate : Z)
    (database sort_type : string) (retmax : Z) (datetype : string)
    (xs : list A) (rs : list (Exn + list string)) : list event :=
  map (fun xr : A * (Exn + list string) =>
         Esearch
           (query_args reldate database sort_type retmax datetype
              (fmt (fst xr)))
           (snd xr))
    (combine xs rs).

(** The query of one item of the journal and topic dictionary. *)
Definition journal_topic_query (x : string * list string) : string :=
  expand (JournalTopic (fst x) (snd x)).

(** The body of the loop of [fetch_pubs_from_ID_list]. *)
Definition fetch_step (entrez_email : string) (ID : string)
    (result_list : list Publication) : Py (list Publication) :=
  bind (remote (PubMedLookup ID entrez_email) (Elookup ID entrez_email))
    (fun lookup =>
       try_except
         (bind (remote (Publication_of lookup) (Epublication lookup))
            (fun pub => ret (result_list ++ [pub])))
         (ret result_list)).

(** The body of the loop of [build_result_dict]. *)
Definition build_step (entrez_email : string) (kv : string * list string)
    (data_dict : TermResults) : Py TermResults :=
  bind (fetch_pubs_from_ID_list (snd kv) entrez_email)
    (fun pubs => ret (OrderedDict.set data_dict (fst kv) pubs)).

(** The credentials a remote call was given, when it takes any. *)
Definition uses_credentials (c : string) (ev : event) : Prop :=
  match ev with
  | Elookup _ c' _ => c' = c
  | _ => True
  end.

(** The credentials of the [PubMedLookup] calls of a trace, in order. *)
Definition lookup_credentials (evs : list event) : list string :=
  flat_map (fun ev => match ev with
                      | Elookup _ c _ => [c]
                      | _ => []
                      end) evs.

(** The mapping [d] holds one entry for each term of [terms], and the
    entry of a term is the identifier list [idss] gives at the last
    position where the term occurs. *)
Definition last_write_wins (terms : list string)
    (idss : list (list string)) (d : OrderedDict.t (list string)) : Prop :=
  NoDup (OrderedDict.keys d) /\
  (forall t, In t terms -> In t (OrderedDict.keys d)) /\
  forall pre t post ipre ids ipost,
    terms = pre ++ t :: post -> ~ In t post ->
    idss = ipre ++ ids :: ipost -> length ipre = length pre ->
    OrderedDict.get d t = Some ids.

(** The number of terms of a result structure. *)
Definition term_count (d : CategoryResults) : nat :=
  list_sum (map (fun x : string * TermResults => length (snd x)) d).

(** The number of its terms without a publication. *)
Definition empty_term_count (d : CategoryResults) : nat :=
  list_sum
    (map (fun x : string * TermResults =>
            length (filter (fun y : string * list Publication =>
                              match snd y with [] => true | _ => false end)
                      (snd x))) d).

(** The line of the settings file for a journal and its topics, with
    optional whitespace around the bracketed list. *)
Definition journal_topic_line (pad1 pad2 : string)
    (entry : string * list string) : string :=
  fst entry +++ "=" +++ pad1 +++ "[" +++ PyStr.join "," (snd entry) +++ "]"
    +++ pad2.

(** What the loop of [parse_journal_topics] stores for a line with one
    equals sign. *)
Definition journal_topic_pair (jt_list : string) : string * list string :=
  match PyStr.split_on "=" jt_list with
  | [journal; topic_list] =>
      (journal, PyStr.split_on "," (PyStr.inner (PyStr.strip topic_list)))
  | _ => (EmptyString, [])
  end.

(** The body of the loop of [parse_journal_topics]. *)
Definition journal_topic_step (jt_list : string)
    (journal_topic_dict : OrderedDict.t (list string))
  : PyErr + OrderedDict.t (list string) :=
  match PyStr.split_on "=" jt_list with
  | [journal; topic_list] =>
      inr (OrderedDict.set journal_topic_dict journal
             (PyStr.split_on "," (PyStr.inner (PyStr.strip topic_list))))
  | _ => inl ValueError
  end.

(** The line is not empty and does not start with a dollar sign. *)
Definition plain_line (line : string) : bool :=
  match PyStr.first line with
  | Some c => negb (Ascii.eqb c "$")
  | None => false
  end.

(** The path that the five getters share:
    [data_record['PubmedArticle'][0]['MedlineCitation']['Article']]. *)
Definition article_of (data_record : pyval) : PyErr + pyval :=
  v <~ getitem data_record "PubmedArticle" ;;
  v <~ getitem0 v ;;
  v <~ getitem v "MedlineCitation" ;;
  getitem v "Article".

(** The element has the attribute [EIdType] with the value doi. *)
Definition is_doi (elocation : pyval) : bool :=
  match attribute elocation "EIdType" with
  | inr t => String.eqb t "doi"
  | inl _ => false
  end.

(** The text of the last element of type doi, the empty string when
    there is none. *)
Definition last_doi (elocations : list pyval) : string :=
  match find is_doi (rev elocations) with
  | Some elocation => str elocation
  | None => EmptyString
  end.

(** The author has a last name and initials, both strings, and [name]
    is the first followed by a space and the second. *)
Definition named (author : pyval) (name : string) : Prop :=
  exists last la initials ia,
    getitem author "LastName" = inr (PStr last la) /\
    getitem author "Initials" = inr (PStr initials ia) /\
    name = last +++ " " +++ initials.

(** The author has no name: [e] is what the expression
    [author['LastName'] + ' ' + author['Initials']] raises. The last
    name is looked up and added to the space before the initials are
    looked up; a missing key raises KeyError, a value that is not a
    string cannot be added to one. *)
Definition unnamed (author : pyval) (e : PyErr) : Prop :=
  match getitem author "LastName" with
  | inl e1 => e = e1
  | inr (PStr _ _) =>
      match getitem author "Initials" with
      | inl e2 => e = e2
      | inr (PStr _ _) => False
      | inr _ => e = TypeError
      end
  | inr _ => e = TypeError
  end.

(** The body of the loop of [fetch_data_for_ID_list]. *)
Definition fetch_data_step (database retmode rettype : string) (retmax : Z)
    (ID : string) (result_list : list pyval) : Py (list pyval) :=
  bind (entrezFetch ID database retmode rettype retmax)
    (fun r => ret (result_list ++ [r])).

(** The lookups made for one term of a search dictionary, [outs] being
    what its identifiers gave. *)
Definition term_lookup_events (credentials : string)
    (x : (string * list string) * list (Lookup * (Exn + Publication)))
  : list event :=
  concat (map (lookup_events credentials) (combine (snd (fst x)) (snd x))).

(** The entry of the result dictionary for that term. *)
Definition term_entry
    (x : (string * list string) * list (Lookup * (Exn + Publication)))
  : string * list Publication :=
  (fst (fst x), successes (map snd (snd x))).

(** The event is a search whose query holds no whitespace. *)
Definition search_without_space (ev : event) : Prop :=
  match ev with
  | Esearch a _ => PyStr.no_space (term a) = true
  | _ => False
  end.





(** * Properties *)

(** ** Facts about strings, lists and [OrderedDict] *)

Lemma append_assoc (a b c : string) : (a +++ b) +++ c = a +++ b +++ c.
Proof. induction a as [|x a IH]; simpl; [reflexivity | rewrite IH; reflexivity]. Qed.

Lemma append_nil_r (a : string) : a +++ "" = a.
Proof. induction a as [|x a IH]; simpl; [reflexivity | rewrite IH; reflexivity]. Qed.

Lemma join_cons sep x y l :
  PyStr.join sep (x :: y :: l) = x +++ sep +++ PyStr.join sep (y :: l).
Proof. reflexivity. Qed.

Lemma join_empty_cons x l : PyStr.join "" (x :: l) = x +++ PyStr.join "" l.
Proof.
  destruct l as [|y l]; simpl; [rewrite append_nil_r|]; reflexivity.
Qed.

Lemma join_empty_app l1 l2 :
  PyStr.join "" (l1 ++ l2) = PyStr.join "" l1 +++ PyStr.join "" l2.
Proof.
  induction l1 as [|x l1 IH]; [reflexivity|].
  rewrite <- app_comm_cons, !join_empty_cons, IH, append_assoc.
  reflexivity.
Qed.

Lemma join_three sep a b c :
  PyStr.join sep [a; b; c] = a +++ sep +++ b +++ sep +++ c.
Proof. reflexivity. Qed.

(** The words of [split]: none is empty, none holds a whitespace
    character, and together they are the string without its
    whitespace. *)
Lemma split_words s :
  Forall (fun w => w <> "" /\ PyStr.no_space w = true) (PyStr.split s) /\
  PyStr.join "" (PyStr.split s) = PyStr.strip_spaces s.
Proof.
  induction s as [|c s IH]; [split; [constructor | reflexivity]|].
  destruct IH as [IHw IHj].
  cbn [PyStr.split PyStr.strip_spaces].
  destruct (PyStr.isspace c) eqn:Ec; [split; assumption|].
  assert (Hc : PyStr.no_space (String c "") = true)
    by (simpl; rewrite Ec; reflexivity).
  destruct s as [|d s'].
  - split; [|reflexivity].
    constructor; [split; [discriminate | exact Hc] | constructor].
  - destruct (PyStr.isspace d) eqn:Ed.
    + split.
      * constructor; [split; [discriminate | exact Hc] | exact IHw].
      * rewrite join_empty_cons, IHj. reflexivity.
    + destruct (PyStr.split (String d s')) as [|w ws] eqn:Ew.
      * split.
        -- constructor; [split; [discriminate | exact Hc] | constructor].
        -- rewrite <- IHj. reflexivity.
      * split.
        -- inversion IHw as [|? ? [_ Hw] Hws]; subst.
           constructor; [split; [discriminate|] | exact Hws].
           simpl. rewrite Ec, Hw. reflexivity.
        -- rewrite join_empty_cons in IHj |- *. rewrite <- IHj.
           reflexivity.
Qed.


Lemma filter_and_then {A} (f g : A -> bool) (l : list A) :
  filter f (filter g l) = filter (fun x => g x && f x) l.
Proof.
  induction l as [|a l IH]; simpl; [reflexivity|].
  destruct (g a); simpl; [destruct (f a)|]; rewrite IH; reflexivity.
Qed.

Lemma filter_same_on {A} (f g : A -> bool) (l : list A) :
  (forall x, In x l -> f x = g x) -> filter f l = filter g l.
Proof.
  induction l as [|a l IH]; simpl; intros H; [reflexivity|].
  rewrite (H a (or_introl eq_refl)), IH; auto.
Qed.

Lemma filter_all {A} (f : A -> bool) (l : list A) :
  (forall x, In x l -> f x = true) -> filter f l = l.
Proof.
  induction l as [|a l IH]; simpl; intros H; [reflexivity|].
  rewrite (H a (or_introl eq_refl)), IH; auto.
Qed.

Lemma map_fst_combine_prefix {A B} (l : list A) (l' : list B) :
  length l <= length l' -> map fst (combine l l') = l.
Proof.
  revert l'. induction l as [|a l IH]; intros [|b l'] H; simpl in *;
    try reflexivity; try lia.
  rewrite IH; [reflexivity | lia].
Qed.

Lemma mem_In k l : mem k l = true <-> In k l.
Proof.
  unfold mem. rewrite existsb_exists. split.
  - intros [x [Hin Heq]]. apply String.eqb_eq in Heq. subst. exact Hin.
  - intros Hin. exists k. split; [exact Hin | apply String.eqb_refl].
Qed.

Lemma mem_app k l1 l2 : mem k (l1 ++ l2) = mem k l1 || mem k l2.
Proof. unfold mem. apply existsb_app. Qed.

Lemma first_occurrences_In x l : In x (first_occurrences l) <-> In x l.
Proof.
  induction l as [|a l IH]; simpl; [split; intros []|].
  rewrite filter_In, IH. split.
  - intros [H | [H _]]; auto.
  - intros [H | H]; [left; exact H|].
    destruct (String.eqb a x) eqn:E.
    + apply String.eqb_eq in E. left; exact E.
    + right. split; [exact H | reflexivity].
Qed.

Lemma first_occurrences_NoDup l : NoDup (first_occurrences l).
Proof.
  induction l as [|a l IH]; simpl; constructor.
  - rewrite filter_In. intros [_ H]. rewrite String.eqb_refl in H. discriminate.
  - apply NoDup_filter. exact IH.
Qed.

Lemma first_occurrences_id l : NoDup l -> first_occurrences l = l.
Proof.
  induction 1 as [|a l Hnin Hnd IH]; simpl; [reflexivity|].
  rewrite IH. f_equal. apply filter_all. intros x Hx.
  destruct (String.eqb a x) eqn:E; [|reflexivity].
  apply String.eqb_eq in E. subst. contradiction.
Qed.

Lemma keys_set {V} (d : OrderedDict.t V) k v :
  OrderedDict.keys (OrderedDict.set d k v)
  = if mem k (OrderedDict.keys d) then OrderedDict.keys d
    else OrderedDict.keys d ++ [k].
Proof.
  induction d as [|[k' v'] d IH]; simpl; [reflexivity|].
  rewrite (String.eqb_sym k k').
  destruct (String.eqb k' k) eqn:E; simpl; [reflexivity|].
  fold (OrderedDict.keys (OrderedDict.set d k v)). rewrite IH.
  fold (OrderedDict.keys d). fold (mem k (OrderedDict.keys d)).
  destruct (mem k (OrderedDict.keys d)); reflexivity.
Qed.

Lemma get_set_same {V} (d : OrderedDict.t V) k v :
  OrderedDict.get (OrderedDict.set d k v) k = Some v.
Proof.
  induction d as [|[k' v'] d IH]; simpl.
  - rewrite String.eqb_refl. reflexivity.
  - destruct (String.eqb k' k) eqn:E; simpl; rewrite E; auto.
Qed.

Lemma get_set_other {V} (d : OrderedDict.t V) k k' v :
  k <> k' ->
  OrderedDict.get (OrderedDict.set d k v) k' = OrderedDict.get d k'.
Proof.
  intros Hne. induction d as [|[k0 v0] d IH]; simpl.
  - destruct (String.eqb k k') eqn:E; [|reflexivity].
    apply String.eqb_eq in E. contradiction.
  - destruct (String.eqb k0 k) eqn:E; simpl.
    + apply String.eqb_eq in E. subst k0.
      destruct (String.eqb k k') eqn:E'; [|reflexivity].
      apply String.eqb_eq in E'. contradiction.
    + rewrite IH. reflexivity.
Qed.

Lemma keys_set_all {V} (kvs : list (string * V)) (d : OrderedDict.t V) :
  OrderedDict.keys (set_all kvs d)
  = OrderedDict.keys d
    ++ filter (fun y => negb (mem y (OrderedDict.keys d)))
         (first_occurrences (map fst kvs)).
Proof.
  revert d. unfold set_all.
  induction kvs as [|[k v] kvs IH]; intros d; simpl.
  - rewrite app_nil_r. reflexivity.
  - rewrite IH, keys_set.
    destruct (mem k (OrderedDict.keys d)) eqn:Hk; simpl.
    + f_equal. rewrite filter_and_then. apply filter_same_on.
      intros x _. destruct (String.eqb k x) eqn:E; simpl; [|reflexivity].
      apply String.eqb_eq in E. subst x. rewrite Hk. reflexivity.
    + rewrite <- app_assoc. simpl. f_equal. f_equal.
      rewrite filter_and_then. apply filter_same_on.
      intros x _. rewrite mem_app. unfold mem at 2. simpl.
      rewrite orb_false_r, negb_orb, (String.eqb_sym x k).
      apply andb_comm.
Qed.

Lemma keys_set_all_empty {V} (kvs : list (string * V)) :
  OrderedDict.keys (set_all kvs OrderedDict.empty)
  = first_occurrences (map fst kvs).
Proof.
  rewrite keys_set_all. simpl. apply filter_all. reflexivity.
Qed.

Lemma get_set_all_last {V} (pre post : list (string * V)) k v d :
  ~ In k (map fst post) ->
  OrderedDict.get (set_all (pre ++ (k, v) :: post) d) k = Some v.
Proof.
  intros Hnin. unfold set_all. rewrite fold_left_app. simpl.
  set (d1 := fold_left _ pre d). clearbody d1.
  assert (H : OrderedDict.get (OrderedDict.set d1 k v) k = Some v)
    by apply get_set_same.
  revert H. generalize (OrderedDict.set d1 k v) as d2.
  induction post as [|[k' v'] post IH]; intros d2 H; simpl; [exact H|].
  apply IH.
  - intros Hin. apply Hnin. right. exact Hin.
  - rewrite get_set_other; [exact H|].
    intros Heq. apply Hnin. left. exact Heq.
Qed.

(** ** Running the search loops *)

Lemma for_in_ext {A S} (xs : list A) (f g : A -> S -> Py S) acc s :
  (forall x a s, f x a s = g x a s) ->
  for_in xs f acc s = for_in xs g acc s.
Proof.
  intros H. revert acc s.
  induction xs as [|x xs IH]; simpl; intros acc s; [reflexivity|].
  unfold bind. rewrite H. destruct (g x acc s) as [[e|a'] s1]; auto.
Qed.

Lemma for_in_cons {A S} (x : A) xs (f : A -> S -> Py S) acc s :
  for_in (x :: xs) f acc s
  = match f x acc s with
    | (inl e, s1) => (inl e, s1)
    | (inr a, s1) => for_in xs f a s1
    end.
Proof. reflexivity. Qed.

Section SearchLoop.

Context {A : Type}.
Variables (fmt key : A -> string).
Variables (reldate : Z) (database sort_type : string) (retmax : Z)
  (datetype : string).

Lemma search_step_run x d s :
  (search_step fmt key reldate database sort_type retmax datetype) x d s
  = let a := query_args reldate database sort_type retmax datetype
               (fmt x) in
    let (r, w') := Entrez_esearch a (world s) in
    let s1 := mkState w' (Entrez_email s) (trace s ++ [Esearch a r]) in
    match r with
    | inl e => (inl e, s1)
    | inr ids => (inr (OrderedDict.set d (key x) ids), s1)
    end.
Proof.
  unfold search_step, bind, entrezSearch, remote, ret, query_args.
  destruct (Entrez_esearch _ (world s)) as [[e|ids] w']; reflexivity.
Qed.

Lemma search_loop_inr xs : forall d0 s d s',
  for_in xs (search_step fmt key reldate database sort_type retmax datetype) d0 s = (inr d, s') ->
  exists idss,
    length idss = length xs /\
    trace s' = trace s ++ search_events fmt reldate database sort_type retmax datetype xs (map inr idss) /\
    d = set_all (combine (map key xs) idss) d0 /\
    Entrez_email s' = Entrez_email s.
Proof.
  induction xs as [|x xs IH]; intros d0 s d s' H.
  - simpl in H. inversion H; subst. exists []. rewrite app_nil_r. auto.
  - rewrite for_in_cons, search_step_run in H. simpl in H.
    destruct (Entrez_esearch _ (world s)) as [[e|ids] w'] eqn:E;
      [discriminate|].
    apply IH in H. destruct H as (idss & Hlen & Htr & Hd & Hem).
    exists (ids :: idss). simpl in *.
    split; [rewrite Hlen; reflexivity | split; [|split]].
    + rewrite Htr, <- app_assoc. reflexivity.
    + exact Hd.
    + exact Hem.
Qed.

Lemma search_loop_any xs : forall d0 s r s',
  for_in xs (search_step fmt key reldate database sort_type retmax datetype) d0 s = (r, s') ->
  exists rs,
    length rs <= length xs /\
    trace s' = trace s ++ search_events fmt reldate database sort_type retmax datetype xs rs /\
    (forall d, r = inr d -> length rs = length xs).
Proof.
  induction xs as [|x xs IH]; intros d0 s r s' H.
  - simpl in H. inversion H; subst. exists []. rewrite app_nil_r. auto.
  - rewrite for_in_cons, search_step_run in H. simpl in H.
    destruct (Entrez_esearch _ (world s)) as [[e|ids] w'] eqn:E.
    + inversion H; subst. exists [inl e].
      unfold search_events. simpl. rewrite combine_nil.
      split; [lia | split; [reflexivity | discriminate]].
    + apply IH in H. destruct H as (rs & Hlen & Htr & Hall).
      exists (inr ids :: rs). simpl in *.
      split; [lia | split].
      * rewrite Htr, <- app_assoc. reflexivity.
      * intros d Hd. rewrite (Hall d Hd). reflexivity.
Qed.

Lemma search_loop_total xs :
  (forall a w, exists ids w', Entrez_esearch a w = (inr ids, w')) ->
  forall d0 s, exists d s', for_in xs (search_step fmt key reldate database sort_type retmax datetype) d0 s = (inr d, s').
Proof.
  intros Hok. induction xs as [|x xs IH]; intros d0 s.
  - exists d0, s. reflexivity.
  - rewrite for_in_cons, search_step_run. simpl.
    destruct (Hok (query_args reldate database sort_type retmax datetype
                     (fmt x)) (world s)) as (ids & w' & E).
    rewrite E. apply IH.
Qed.

End SearchLoop.

Lemma search_by_keywords_loop keywords reldate database sort_type retmax
    datetype :
  search_by_keywords keywords reldate database sort_type retmax datetype
  = for_in keywords
      (search_step (fun t => expand (Keyword t)) (fun t => t)
         reldate database sort_type retmax datetype)
      OrderedDict.empty.
Proof. reflexivity. Qed.

Lemma search_by_authors_loop authors reldate database sort_type retmax
    datetype :
  search_by_authors authors reldate database sort_type retmax datetype
  = for_in authors
      (search_step (fun t => expand (Author t)) (fun t => t)
         reldate database sort_type retmax datetype)
      OrderedDict.empty.
Proof. reflexivity. Qed.

Lemma search_by_journal_and_topic_loop jt reldate database sort_type
    retmax datetype s :
  search_by_journal_and_topic jt reldate database sort_type retmax
    datetype s
  = for_in (OrderedDict.items jt)
      (search_step journal_topic_query journal_topic_query
         reldate database sort_type retmax datetype)
      OrderedDict.empty s.
Proof.
  unfold search_by_journal_and_topic. apply for_in_ext.
  intros [journal topic_list] d s0. reflexivity.
Qed.

(** ** Running the fetch loop *)

Section FetchLoop.

Variable entrez_email : string.

Lemma fetch_pubs_from_ID_list_loop ID_list :
  fetch_pubs_from_ID_list ID_list entrez_email
  = for_in ID_list (fetch_step entrez_email) [].
Proof. reflexivity. Qed.

Lemma fetch_step_run ID acc s :
  (fetch_step entrez_email) ID acc s
  = let (r, w1) := PubMedLookup ID entrez_email (world s) in
    let t1 := trace s ++ [Elookup ID entrez_email r] in
    match r with
    | inl e => (inl e, mkState w1 (Entrez_email s) t1)
    | inr l =>
        let (r2, w2) := Publication_of l w1 in
        let s2 := mkState w2 (Entrez_email s) (t1 ++ [Epublication l r2]) in
        match r2 with
        | inl _ => (inr acc, s2)
        | inr p => (inr (acc ++ [p]), s2)
        end
    end.
Proof.
  unfold fetch_step, bind, try_except, remote, ret.
  destruct (PubMedLookup ID entrez_email (world s)) as [[e|l] w1];
    simpl; [reflexivity|].
  destruct (Publication_of l w1) as [[e2|p] w2]; reflexivity.
Qed.

Lemma fetch_loop_inr ID_list : forall acc s pubs s',
  for_in ID_list (fetch_step entrez_email) acc s = (inr pubs, s') ->
  exists outs : list (Lookup * (Exn + Publication)),
    length outs = length ID_list /\
    trace s' = trace s
               ++ concat (map (lookup_events entrez_email)
                            (combine ID_list outs)) /\
    pubs = acc ++ successes (map snd outs) /\
    Entrez_email s' = Entrez_email s.
Proof.
  induction ID_list as [|ID ids IH]; intros acc s pubs s' H.
  - simpl in H. inversion H; subst. exists [].
    simpl. rewrite !app_nil_r. auto.
  - rewrite for_in_cons, fetch_step_run in H.
    destruct (PubMedLookup ID entrez_email (world s)) as [[e|l] w1];
      [discriminate|].
    destruct (Publication_of l w1) as [[e2|p] w2];
      apply IH in H; destruct H as (outs & Hlen & Htr & Hp & Hem);
      [exists ((l, inl e2) :: outs) | exists ((l, inr p) :: outs)];
      simpl in *;
      (split; [rewrite Hlen; reflexivity | split; [|split]]);
      try exact Hem.
    + rewrite Htr, <- !app_assoc. reflexivity.
    + exact Hp.
    + rewrite Htr, <- !app_assoc. reflexivity.
    + rewrite Hp, <- app_assoc. reflexivity.
Qed.

Lemma fetch_loop_inl ID_list : forall acc s e s',
  for_in ID_list (fetch_step entrez_email) acc s = (inl e, s') ->
  exists pre ID post (outs : list (Lookup * (Exn + Publication))),
    ID_list = pre ++ ID :: post /\
    length outs = length pre /\
    trace s' = trace s
               ++ concat (map (lookup_events entrez_email)
                            (combine pre outs))
               ++ [Elookup ID entrez_email (inl e)] /\
    Entrez_email s' = Entrez_email s.
Proof.
  induction ID_list as [|ID ids IH]; intros acc s e s' H.
  - simpl in H. discriminate.
  - rewrite for_in_cons, fetch_step_run in H.
    destruct (PubMedLookup ID entrez_email (world s)) as [[e1|l] w1].
    + inversion H; subst. exists [], ID, ids, []. simpl. auto.
    + destruct (Publication_of l w1) as [[e2|p] w2];
        apply IH in H;
        destruct H as (pre & ID' & post & outs & Hl & Hlen & Htr & Hem);
        [exists (ID :: pre), ID', post, ((l, inl e2) :: outs)
        |exists (ID :: pre), ID', post, ((l, inr p) :: outs)];
        simpl in *;
        (split; [rewrite Hl; reflexivity
                | split; [rewrite Hlen; reflexivity | split]]);
        try exact Hem;
        rewrite Htr, <- !app_assoc; reflexivity.
Qed.

(** The exception that leaves the loop is the one that a
    [PubMedLookup] construction raised, and the world is left as that
    construction left it. *)
Lemma fetch_loop_raises ID_list : forall acc s e s',
  for_in ID_list (fetch_step entrez_email) acc s = (inl e, s') ->
  exists pre ID post (outs : list (Lookup * (Exn + Publication))) w,
    ID_list = pre ++ ID :: post /\
    length outs = length pre /\
    trace s' = trace s
               ++ concat (map (lookup_events entrez_email)
                            (combine pre outs))
               ++ [Elookup ID entrez_email (inl e)] /\
    PubMedLookup ID entrez_email w = (inl e, world s').
Proof.
  induction ID_list as [|ID ids IH]; intros acc s e s' H.
  - simpl in H. discriminate.
  - rewrite for_in_cons, fetch_step_run in H.
    destruct (PubMedLookup ID entrez_email (world s)) as [[e1|l] w1] eqn:E.
    + inversion H; subst. exists [], ID, ids, [], (world s). simpl. auto.
    + destruct (Publication_of l w1) as [[e2|p] w2];
        apply IH in H;
        destruct H as (pre & ID' & post & outs & w & Hl & Hlen & Htr & Hw);
        [exists (ID :: pre), ID', post, ((l, inl e2) :: outs), w
        |exists (ID :: pre), ID', post, ((l, inr p) :: outs), w];
        simpl in *;
        (split; [rewrite Hl; reflexivity
                | split; [rewrite Hlen; reflexivity | split]]);
        try exact Hw;
        rewrite Htr, <- !app_assoc; reflexivity.
Qed.

(** The loop returns when the lookups of its own identifiers, with its
    own credentials, return. *)
Lemma fetch_loop_returns ID_list :
  (forall ID w, In ID ID_list ->
                exists l w', PubMedLookup ID entrez_email w = (inr l, w')) ->
  forall acc s, exists pubs s',
    for_in ID_list (fetch_step entrez_email) acc s = (inr pubs, s').
Proof.
  induction ID_list as [|ID ids IH]; intros Hok acc s.
  - exists acc, s. reflexivity.
  - rewrite for_in_cons, fetch_step_run.
    destruct (Hok ID (world s) (or_introl eq_refl)) as (l & w1 & E).
    rewrite E.
    destruct (Publication_of l w1) as [[e2|p] w2];
      apply IH; intros ID' w Hin; apply Hok; right; exact Hin.
Qed.

Lemma successes_length rs : length (successes rs) <= length rs.
Proof.
  induction rs as [|[e|p] rs IH]; simpl; lia.
Qed.

End FetchLoop.

(** ** Running [build_result_dict] and [main] *)

Lemma bind_inr {A B} (m : Py A) (k : A -> Py B) s b s' :
  bind m k s = (inr b, s') ->
  exists a s1, m s = (inr a, s1) /\ k a s1 = (inr b, s').
Proof.
  unfold bind. destruct (m s) as [[e|a] s1]; intros H; [discriminate|].
  exists a, s1. auto.
Qed.

Lemma bind_any {A B} (m : Py A) (k : A -> Py B) s r s' :
  bind m k s = (r, s') ->
  (exists e, m s = (inl e, s') /\ r = inl e) \/
  (exists a s1, m s = (inr a, s1) /\ k a s1 = (r, s')).
Proof.
  unfold bind. destruct (m s) as [[e|a] s1]; intros H.
  - inversion H; subst. left. exists e. auto.
  - right. exists a, s1. auto.
Qed.

Lemma fetch_loop_credentials entrez_email ID_list : forall acc s r s',
  for_in ID_list (fetch_step entrez_email) acc s = (r, s') ->
  exists evs,
    trace s' = trace s ++ evs /\
    Forall (uses_credentials entrez_email) evs.
Proof.
  induction ID_list as [|ID ids IH]; intros acc s r s' H.
  - simpl in H. inversion H; subst. exists []. rewrite app_nil_r. auto.
  - rewrite for_in_cons, fetch_step_run in H.
    destruct (PubMedLookup ID entrez_email (world s)) as [[e|l] w1].
    + inversion H; subst. simpl. eexists. split; [reflexivity|].
      repeat constructor.
    + destruct (Publication_of l w1) as [[e2|p] w2];
        apply IH in H; destruct H as (evs & Htr & Hall); simpl in Htr;
        rewrite <- !app_assoc in Htr; simpl in Htr;
        (eexists; split; [exact Htr|]);
        repeat constructor; exact Hall.
Qed.

Section BuildLoop.

Variable entrez_email : string.

Lemma build_result_dict_loop search_dict s :
  build_result_dict search_dict entrez_email s
  = for_in (OrderedDict.items search_dict) (build_step entrez_email) OrderedDict.empty s.
Proof.
  unfold build_result_dict. apply for_in_ext.
  intros [key UID_list] d s0. reflexivity.
Qed.

Lemma build_loop_inr sd : forall d0 s d s',
  for_in sd (build_step entrez_email) d0 s = (inr d, s') ->
  exists pubss,
    length pubss = length sd /\
    d = set_all (combine (map fst sd) pubss) d0 /\
    Entrez_email s' = Entrez_email s.
Proof.
  induction sd as [|[k ids] sd IH]; intros d0 s d s' H.
  - simpl in H. inversion H; subst. exists []. auto.
  - rewrite for_in_cons in H. unfold build_step at 1 in H.
    destruct (bind _ _ s) as [[e|d1] s1] eqn:E; [discriminate|].
    apply bind_inr in E. destruct E as (pubs & s0 & Hf & Hr).
    inversion Hr; subst. simpl in Hf.
    rewrite fetch_pubs_from_ID_list_loop in Hf.
    apply fetch_loop_inr in Hf. destruct Hf as (_ & _ & _ & _ & Hem0).
    apply IH in H. destruct H as (pubss & Hlen & Hd & Hem).
    exists (pubs :: pubss). simpl.
    split; [rewrite Hlen; reflexivity | split; [exact Hd|]].
    rewrite Hem. exact Hem0.
Qed.

Lemma build_loop_credentials sd : forall d0 s r s',
  for_in sd (build_step entrez_email) d0 s = (r, s') ->
  exists evs,
    trace s' = trace s ++ evs /\
    Forall (uses_credentials entrez_email) evs.
Proof.
  induction sd as [|[k ids] sd IH]; intros d0 s r s' H.
  - simpl in H. inversion H; subst. exists []. rewrite app_nil_r. auto.
  - rewrite for_in_cons in H. unfold build_step at 1 in H.
    destruct (bind _ _ s) as [[e|d1] s1] eqn:E.
    + inversion H; subst. apply bind_any in E.
      destruct E as [(e' & Hf & _) | (a & s0 & _ & Hr)];
        [|discriminate].
      simpl in Hf. rewrite fetch_pubs_from_ID_list_loop in Hf.
      apply fetch_loop_credentials in Hf. exact Hf.
    + apply bind_inr in E. destruct E as (pubs & s0 & Hf & Hr).
      inversion Hr; subst. simpl in Hf.
      rewrite fetch_pubs_from_ID_list_loop in Hf.
      apply fetch_loop_credentials in Hf.
      destruct Hf as (evs1 & Htr1 & Hall1).
      apply IH in H. destruct H as (evs2 & Htr2 & Hall2).
      exists (evs1 ++ evs2). rewrite Htr2, Htr1, app_assoc.
      split; [reflexivity | apply Forall_app; auto].
Qed.

End BuildLoop.

Lemma build_result_dict_keys entrez_email search_dict s d s' :
  build_result_dict search_dict entrez_email s = (inr d, s') ->
  OrderedDict.keys d = first_occurrences (OrderedDict.keys search_dict).
Proof.
  rewrite build_result_dict_loop. intros H.
  apply build_loop_inr in H. destruct H as (pubss & Hlen & Hd & _).
  subst d. rewrite keys_set_all_empty.
  unfold OrderedDict.items, OrderedDict.keys in *.
  rewrite map_fst_combine_prefix; [reflexivity|].
  rewrite length_map, Hlen. apply le_n.
Qed.

Lemma main_inr cfg today s r s' :
  main cfg today s = (inr r, s') ->
  exists kr ar jr kp ap jp s1 s2 s3 s4 s5,
    let N := pub_days_ago cfg in
    let s0 := mkState (world s) (Some (entrez_email_address cfg)) (trace s) in
    let all := [("Keyword Searches", kp); ("Author Searches", ap);
                ("Journal and Topic Searches", jp)] in
    search_by_keywords (search_keywords cfg) N "pubmed" "Most Recent" 20
      "edat" s0 = (inr kr, s1) /\
    search_by_authors (search_authors cfg) N "pubmed" "Most Recent" 20
      "edat" s1 = (inr ar, s2) /\
    search_by_journal_and_topic (journal_topic_dict cfg) N "pubmed"
      "Most Recent" 20 "edat" s2 = (inr jr, s3) /\
    build_result_dict kr "pubmed" s3 = (inr kp, s4) /\
    build_result_dict ar "pubmed" s4 = (inr ap, s5) /\
    build_result_dict jr "pubmed" s5 = (inr jp, s') /\
    r = mkRun all (total_hits all)
          (mkMessage
             (PyStr.format "pub scraper report - {}" [today]
                +++ PyStr.format " ({} hits)"
                      [PyStr.str_of_int (total_hits all)])
             (PyStr.join "," (send_to_email_address cfg))
             (sender_email cfg)
             (construct_email_body all N)).
Proof.
  unfold main. intros H.
  apply bind_inr in H. destruct H as ([] & s0 & H0 & H).
  unfold set_Entrez_email in H0. inversion H0; subst s0; clear H0.
  apply bind_inr in H. destruct H as (kr & s1 & H1 & H).
  apply bind_inr in H. destruct H as (ar & s2 & H2 & H).
  apply bind_inr in H. destruct H as (jr & s3 & H3 & H).
  apply bind_inr in H. destruct H as (kp & s4 & H4 & H).
  apply bind_inr in H. destruct H as (ap & s5 & H5 & H).
  apply bind_inr in H. destruct H as (jp & s6 & H6 & H).
  unfold ret in H. inversion H; subst; clear H.
  exists kr, ar, jr, kp, ap, jp, s1, s2, s3, s4, s5. cbv zeta.
  repeat (split; [assumption|]). reflexivity.
Qed.

(** ** The layout of the report *)

Lemma append_entries pubs : forall rs,
  fold_left
    (fun report_subsection pub =>
       let report_subsection :=
         report_subsection ++
           [PyStr.format title_template [url pub; title pub]] in
       let report_subsection :=
         report_subsection ++
           [PyStr.format journal_template [journal pub]] in
       report_subsection ++
         [PyStr.format authors_template [authors pub]])
    pubs rs
  = rs ++ concat (map entry_block pubs).
Proof.
  induction pubs as [|p pubs IH]; intros rs; simpl fold_left.
  - simpl. rewrite app_nil_r. reflexivity.
  - rewrite IH. simpl concat. rewrite <- !app_assoc. reflexivity.
Qed.

Lemma append_term_pieces rs term pubs N :
  append_term rs term pubs N = rs ++ term_pieces N (term, pubs).
Proof.
  unfold append_term. destruct pubs as [|p pubs].
  - simpl. rewrite <- app_assoc. reflexivity.
  - replace (Z.of_nat (length (p :: pubs)) <? 1)%Z with false
      by (symmetry; apply Z.ltb_ge; simpl length; lia).
    rewrite append_entries, <- app_assoc. reflexivity.
Qed.

Lemma append_terms_pieces (rd : TermResults) N : forall rs,
  fold_left
    (fun report_subsection '(term, pub_list) =>
       append_term report_subsection term pub_list N)
    rd rs
  = rs ++ concat (map (term_pieces N) rd).
Proof.
  induction rd as [|[term pubs] rd IH]; intros rs; simpl fold_left.
  - simpl. rewrite app_nil_r. reflexivity.
  - rewrite IH, append_term_pieces. simpl concat.
    rewrite <- app_assoc. reflexivity.
Qed.

Lemma report_subsection_pieces section result_dict N :
  report_subsection section result_dict N
  = section_pieces N (section, result_dict).
Proof.
  unfold report_subsection, OrderedDict.items.
  rewrite append_terms_pieces. reflexivity.
Qed.

Lemma append_sections (d : CategoryResults) N : forall acc,
  fold_left
    (fun report_sections '(section, result_dict) =>
       report_sections ++
         [PyStr.join "" (report_subsection section result_dict N)])
    d acc
  = acc ++ map (render_section N) d.
Proof.
  induction d as [|[section rd] d IH]; intros acc; simpl fold_left.
  - simpl. rewrite app_nil_r. reflexivity.
  - rewrite IH, report_subsection_pieces, <- app_assoc. reflexivity.
Qed.

Lemma report_sections_map d N :
  report_sections d N = map (render_section N) d.
Proof.
  unfold report_sections, OrderedDict.items. apply append_sections.
Qed.

Lemma construct_email_body_layout d N :
  construct_email_body d N
  = html_header +++ PyStr.nl
      +++ PyStr.join "<br/>" (map (render_section N) d)
      +++ PyStr.nl +++ html_tail.
Proof.
  unfold construct_email_body. rewrite report_sections_map. reflexivity.
Qed.

(** ** The hit counter *)

Lemma total_hits_inner (rd : TermResults) : forall acc : Z,
  fold_left
    (fun total_hits '(term, pub_list) =>
       (total_hits + Z.of_nat (length pub_list))%Z)
    rd acc
  = (acc + Z.of_nat (list_sum (map (fun y : string * list Publication =>
                                      length (snd y)) rd)))%Z.
Proof.
  induction rd as [|[term pubs] rd IH]; intros acc; simpl.
  - lia.
  - rewrite IH. lia.
Qed.

Lemma total_hits_outer (d : CategoryResults) : forall acc : Z,
  fold_left
    (fun total_hits '(group, result_dict) =>
       fold_left
         (fun total_hits '(term, pub_list) =>
            (total_hits + Z.of_nat (length pub_list))%Z)
         (OrderedDict.items result_dict) total_hits)
    d acc
  = (acc + Z.of_nat
             (list_sum
                (map (fun x : string * TermResults =>
                        list_sum (map (fun y : string * list Publication =>
                                         length (snd y)) (snd x))) d)))%Z.
Proof.
  induction d as [|[group rd] d IH]; intros acc; simpl.
  - lia.
  - rewrite IH. unfold OrderedDict.items. rewrite total_hits_inner. lia.
Qed.

Lemma entry_blocks_length (d : CategoryResults) :
  length (entry_blocks d)
  = list_sum
      (map (fun x : string * TermResults =>
              list_sum (map (fun y : string * list Publication =>
                               length (snd y)) (snd x))) d).
Proof.
  unfold entry_blocks.
  induction d as [|[group rd] d IH]; simpl; [reflexivity|].
  rewrite length_app, IH. f_equal.
  clear. induction rd as [|[term pubs] rd IH]; simpl; [reflexivity|].
  rewrite length_app, length_map, IH. reflexivity.
Qed.

(** ** The Publication Fetcher *)

(** C1, as amended. Every run of [fetch_pubs_from_ID_list] ends in
    one of two ways. Either every [PubMedLookup] construction of the
    run returned: then the function returns, it made one lookup per
    identifier in the order of the input list, and the list it returns
    holds exactly the publications whose construction succeeded, in
    that order; a failed [Publication] construction contributes nothing
    and raises nothing, so N identifiers give between 0 and N
    publications. Or the [PubMedLookup] construction of an identifier
    raised: then this exception leaves the function at the first such
    identifier, no publication is returned and the identifiers after it
    are not looked up. The function returns whenever the lookups of the
    identifiers of its list, with its credentials, return. *)
Theorem fetch_pubs_from_ID_list_best_effort ID_list entrez_email s :
  ((exists pubs s' (outs : list (Lookup * (Exn + Publication))),
       fetch_pubs_from_ID_list ID_list entrez_email s = (inr pubs, s') /\
       length outs = length ID_list /\
       trace s' = trace s
                  ++ concat (map (lookup_events entrez_email)
                               (combine ID_list outs)) /\
       pubs = successes (map snd outs) /\
       length pubs <= length ID_list)
   \/
   (exists e s' pre ID post (outs : list (Lookup * (Exn + Publication))) w,
       fetch_pubs_from_ID_list ID_list entrez_email s = (inl e, s') /\
       ID_list = pre ++ ID :: post /\
       length outs = length pre /\
       trace s' = trace s
                  ++ concat (map (lookup_events entrez_email)
                               (combine pre outs))
                  ++ [Elookup ID entrez_email (inl e)] /\
       PubMedLookup ID entrez_email w = (inl e, world s')))
  /\
  ((forall ID w, In ID ID_list ->
                 exists l w', PubMedLookup ID entrez_email w = (inr l, w')) ->
   exists pubs s',
     fetch_pubs_from_ID_list ID_list entrez_email s = (inr pubs, s')).
Proof.
  rewrite fetch_pubs_from_ID_list_loop. split.
  - destruct (for_in ID_list (fetch_step entrez_email) [] s)
      as [[e|pubs] s'] eqn:Hrun.
    + right.
      destruct (fetch_loop_raises entrez_email ID_list [] s e s' Hrun)
        as (pre & ID & post & outs & w & Hl & Hlen & Htr & Hw).
      exists e, s', pre, ID, post, outs, w. auto.
    + left. exists pubs, s'.
      destruct (fetch_loop_inr entrez_email ID_list [] s pubs s' Hrun)
        as (outs & Hlen & Htr & Hp & _).
      exists outs. simpl in Hp.
      split; [reflexivity|].
      repeat (split; [assumption|]).
      subst pubs. rewrite <- Hlen, <- (length_map snd outs).
      apply successes_length.
  - intros Hok. apply (fetch_loop_returns entrez_email ID_list Hok).
Qed.

(** The only way out of [fetch_pubs_from_ID_list] by an exception is a
    [PubMedLookup] construction that raised: the call sits before the
    [try]. The lookups before it are in the trace; the identifiers
    after it are never looked up. *)
Lemma fetch_pubs_from_ID_list_failure ID_list entrez_email s e s' :
  fetch_pubs_from_ID_list ID_list entrez_email s = (inl e, s') ->
  exists pre ID post (outs : list (Lookup * (Exn + Publication))),
    ID_list = pre ++ ID :: post /\
    length outs = length pre /\
    trace s' = trace s
               ++ concat (map (lookup_events entrez_email)
                            (combine pre outs))
               ++ [Elookup ID entrez_email (inl e)].
Proof.
  rewrite fetch_pubs_from_ID_list_loop. intros H.
  apply fetch_loop_inl in H.
  destruct H as (pre & ID & post & outs & Hl & Hlen & Htr & _).
  exists pre, ID, post, outs. auto.
Qed.

(** ** Credentials of the lookups *)

(** [build_result_dict] hands its second argument to every lookup. *)
Lemma build_result_dict_credentials search_dict entrez_email s r s' :
  build_result_dict search_dict entrez_email s = (r, s') ->
  exists evs,
    trace s' = trace s ++ evs /\
    Forall (uses_credentials entrez_email) evs.
Proof.
  rewrite build_result_dict_loop. apply build_loop_credentials.
Qed.

(** Whatever address is configured, every lookup made by a run of
    [main] that returns is given the database name. *)
Lemma main_credentials cfg today s r s' :
  main cfg today s = (inr r, s') ->
  Entrez_email s' = Some (entrez_email_address cfg) /\
  exists evs,
    trace s' = trace s ++ evs /\
    Forall (uses_credentials "pubmed") evs.
Proof.
  intros H. apply main_inr in H.
  destruct H as (kr & ar & jr & kp & ap & jp & s1 & s2 & s3 & s4 & s5 & H).
  cbv zeta in H. destruct H as (H1 & H2 & H3 & H4 & H5 & H6 & _).
  rewrite search_by_keywords_loop in H1. apply search_loop_inr in H1.
  rewrite search_by_authors_loop in H2. apply search_loop_inr in H2.
  rewrite search_by_journal_and_topic_loop in H3.
  apply search_loop_inr in H3.
  destruct H1 as (i1 & _ & T1 & _ & E1).
  destruct H2 as (i2 & _ & T2 & _ & E2).
  destruct H3 as (i3 & _ & T3 & _ & E3).
  assert (E4 : Entrez_email s4 = Entrez_email s3).
  { rewrite build_result_dict_loop in H4. apply build_loop_inr in H4.
    destruct H4 as (? & _ & _ & E); exact E. }
  assert (E5 : Entrez_email s5 = Entrez_email s4).
  { rewrite build_result_dict_loop in H5. apply build_loop_inr in H5.
    destruct H5 as (? & _ & _ & E); exact E. }
  assert (E6 : Entrez_email s' = Entrez_email s5).
  { rewrite build_result_dict_loop in H6. apply build_loop_inr in H6.
    destruct H6 as (? & _ & _ & E); exact E. }
  split.
  { rewrite E6, E5, E4, E3, E2, E1. reflexivity. }
  apply build_result_dict_credentials in H4, H5, H6.
  destruct H4 as (e4 & T4 & F4). destruct H5 as (e5 & T5 & F5).
  destruct H6 as (e6 & T6 & F6).
  simpl in T1.
  eexists. split.
  - rewrite T6, T5, T4, T3, T2, T1, <- !app_assoc. reflexivity.
  - assert (Hs : forall A (f : A -> string) a b c d e xs rs,
               Forall (uses_credentials "pubmed")
                 (search_events f a b c d e xs rs)).
    { intros. unfold search_events. apply Forall_forall.
      intros ev Hin. apply in_map_iff in Hin.
      destruct Hin as (x & <- & _). exact I. }
    repeat (apply Forall_app; split); auto.
Qed.

(** ** The Term Expander *)

(** C3. Every search that the three search functions issue carries the
    query that the template of its variant gives for the configured
    term: the words of a keyword joined by [+] and followed by
    [[Title/Abstract]], an author name followed by [[Author]], a
    journal followed by [[Journal] AND (t1 OR t2 ...)]. The searches
    are issued in the order of the terms, one per term, up to the
    first search that raises. *)
Theorem search_queries_follow_templates reldate database sort_type
    retmax datetype s :
  (forall keywords, exists rs,
      trace (snd (search_by_keywords keywords reldate database sort_type
                    retmax datetype s))
      = trace s ++ search_events (fun t => expand (Keyword t)) reldate
                     database sort_type retmax datetype keywords rs /\
      length rs <= length keywords /\
      (forall d, fst (search_by_keywords keywords reldate database
                        sort_type retmax datetype s) = inr d ->
                 length rs = length keywords)) /\
  (forall authors, exists rs,
      trace (snd (search_by_authors authors reldate database sort_type
                    retmax datetype s))
      = trace s ++ search_events (fun t => expand (Author t)) reldate
                     database sort_type retmax datetype authors rs /\
      length rs <= length authors /\
      (forall d, fst (search_by_authors authors reldate database
                        sort_type retmax datetype s) = inr d ->
                 length rs = length authors)) /\
  (forall jt, exists rs,
      trace (snd (search_by_journal_and_topic jt reldate database
                    sort_type retmax datetype s))
      = trace s ++ search_events
                     (fun x => expand (JournalTopic (fst x) (snd x)))
                     reldate database sort_type retmax datetype
                     (OrderedDict.items jt) rs /\
      length rs <= length (OrderedDict.items jt) /\
      (forall d, fst (search_by_journal_and_topic jt reldate database
                        sort_type retmax datetype s) = inr d ->
                 length rs = length (OrderedDict.items jt))).
Proof.
  split; [|split].
  - intros keywords. rewrite search_by_keywords_loop.
    destruct (for_in keywords _ _ s) as [r s'] eqn:E.
    apply search_loop_any in E. destruct E as (rs & Hlen & Htr & Hall).
    exists rs. simpl. auto.
  - intros authors. rewrite search_by_authors_loop.
    destruct (for_in authors _ _ s) as [r s'] eqn:E.
    apply search_loop_any in E. destruct E as (rs & Hlen & Htr & Hall).
    exists rs. simpl. auto.
  - intros jt. rewrite search_by_journal_and_topic_loop.
    destruct (for_in (OrderedDict.items jt) _ _ s) as [r s'] eqn:E.
    apply search_loop_any in E. destruct E as (rs & Hlen & Htr & Hall).
    exists rs. simpl. auto.
Qed.

(** ** Strings that occur in the report *)

Lemma occurs_in_refl x : occurs_in x x.
Proof. exists "", "". simpl. rewrite append_nil_r. reflexivity. Qed.

Lemma occurs_in_trans x y z :
  occurs_in x y -> occurs_in y z -> occurs_in x z.
Proof.
  intros (a & b & ->) (c & d & ->).
  exists (c +++ a), (b +++ d). rewrite !append_assoc. reflexivity.
Qed.

Lemma occurs_in_left x a s : occurs_in x s -> occurs_in x (a +++ s).
Proof.
  intros (p & q & ->). exists (a +++ p), q.
  rewrite append_assoc. reflexivity.
Qed.

Lemma occurs_in_right x s b : occurs_in x s -> occurs_in x (s +++ b).
Proof.
  intros (p & q & ->). exists p, (q +++ b).
  rewrite !append_assoc. reflexivity.
Qed.

Lemma join_occurs sep x l : In x l -> occurs_in x (PyStr.join sep l).
Proof.
  induction l as [|a l IH]; intros Hin; [contradiction|].
  destruct l as [|b l].
  - destruct Hin as [<- | []]. apply occurs_in_refl.
  - rewrite join_cons. destruct Hin as [<- | Hin].
    + apply occurs_in_right, occurs_in_refl.
    + apply occurs_in_left, occurs_in_left, IH, Hin.
Qed.

Lemma term_heading_in_pieces N section (rd : TermResults) term :
  In term (OrderedDict.keys rd) ->
  In (term_heading term) (section_pieces N (section, rd)).
Proof.
  intros Hin. unfold OrderedDict.keys in Hin. apply in_map_iff in Hin.
  destruct Hin as ([t pubs] & Ht & Hin). simpl in Ht. subst t.
  simpl. right. apply in_concat.
  exists (term_pieces N (term, pubs)). split.
  - apply in_map. exact Hin.
  - simpl. left. reflexivity.
Qed.

Lemma term_heading_in_body N (d : CategoryResults) section rd term :
  In (section, rd) d ->
  In term (OrderedDict.keys rd) ->
  occurs_in (term_heading term) (construct_email_body d N).
Proof.
  intros Hsec Hterm. rewrite construct_email_body_layout.
  apply occurs_in_left, occurs_in_left, occurs_in_right.
  apply occurs_in_trans with (render_section N (section, rd)).
  - apply join_occurs, term_heading_in_pieces, Hterm.
  - apply join_occurs, in_map, Hsec.
Qed.

(** ** A run of [main] that returns *)

Lemma first_occurrences_idem l :
  first_occurrences (first_occurrences l) = first_occurrences l.
Proof. apply first_occurrences_id, first_occurrences_NoDup. Qed.

Lemma search_loop_keys {A} (fmt key : A -> string) reldate database
    sort_type retmax datetype xs s d s' :
  for_in xs (search_step fmt key reldate database sort_type retmax datetype)
    OrderedDict.empty s = (inr d, s') ->
  exists idss,
    length idss = length xs /\
    trace s' = trace s ++ search_events fmt reldate database sort_type
                            retmax datetype xs (map inr idss) /\
    d = set_all (combine (map key xs) idss) OrderedDict.empty /\
    OrderedDict.keys d = first_occurrences (map key xs).
Proof.
  intros H. apply search_loop_inr in H.
  destruct H as (idss & Hlen & Htr & Hd & _).
  exists idss. repeat (split; [assumption|]).
  subst d. rewrite keys_set_all_empty, map_fst_combine_prefix;
    [reflexivity|].
  rewrite length_map, Hlen. apply le_n.
Qed.

Lemma main_shape cfg today s r s' :
  main cfg today s = (inr r, s') ->
  exists kp ap jp i1 i2 i3 evs,
    let N := pub_days_ago cfg in
    let all := [("Keyword Searches", kp); ("Author Searches", ap);
                ("Journal and Topic Searches", jp)] in
    let searched := fun (A : Type) (fmt : A -> string) =>
      search_events fmt N "pubmed" "Most Recent" 20%Z "edat" in
    length i1 = length (search_keywords cfg) /\
    length i2 = length (search_authors cfg) /\
    length i3 = length (OrderedDict.items (journal_topic_dict cfg)) /\
    trace s' = trace s
               ++ searched _ (fun t => expand (Keyword t))
                    (search_keywords cfg) (map inr i1)
               ++ searched _ (fun t => expand (Author t))
                    (search_authors cfg) (map inr i2)
               ++ searched _ journal_topic_query
                    (OrderedDict.items (journal_topic_dict cfg))
                    (map inr i3)
               ++ evs /\
    OrderedDict.keys kp = first_occurrences (search_keywords cfg) /\
    OrderedDict.keys ap = first_occurrences (search_authors cfg) /\
    OrderedDict.keys jp
    = first_occurrences
        (map journal_topic_query
           (OrderedDict.items (journal_topic_dict cfg))) /\
    r = mkRun all (total_hits all)
          (mkMessage
             (PyStr.format "pub scraper report - {}" [today]
                +++ PyStr.format " ({} hits)"
                      [PyStr.str_of_int (total_hits all)])
             (PyStr.join "," (send_to_email_address cfg))
             (sender_email cfg)
             (construct_email_body all N)).
Proof.
  intros H. apply main_inr in H.
  destruct H as (kr & ar & jr & kp & ap & jp & s1 & s2 & s3 & s4 & s5 & H).
  cbv zeta in H. destruct H as (H1 & H2 & H3 & H4 & H5 & H6 & Hr).
  rewrite search_by_keywords_loop in H1. apply search_loop_keys in H1.
  rewrite search_by_authors_loop in H2. apply search_loop_keys in H2.
  rewrite search_by_journal_and_topic_loop in H3.
  apply search_loop_keys in H3.
  destruct H1 as (i1 & L1 & T1 & _ & K1).
  destruct H2 as (i2 & L2 & T2 & _ & K2).
  destruct H3 as (i3 & L3 & T3 & _ & K3).
  pose proof (build_result_dict_keys _ _ _ _ _ H4) as K4.
  pose proof (build_result_dict_keys _ _ _ _ _ H5) as K5.
  pose proof (build_result_dict_keys _ _ _ _ _ H6) as K6.
  apply build_result_dict_credentials in H4, H5, H6.
  destruct H4 as (e4 & T4 & _). destruct H5 as (e5 & T5 & _).
  destruct H6 as (e6 & T6 & _).
  simpl in T1.
  exists kp, ap, jp, i1, i2, i3, (e4 ++ e5 ++ e6). cbv zeta.
  split; [exact L1 | split; [exact L2 | split; [exact L3 | split]]].
  { rewrite T6, T5, T4, T3, T2, T1, <- !app_assoc. reflexivity. }
  rewrite K4, K1, K5, K2, K6, K3, !first_occurrences_idem, !map_id.
  repeat (split; [reflexivity|]). exact Hr.
Qed.

Lemma in_combine_inr {A B E} (x : A) (xs : list A) (ys : list B) :
  length ys = length xs -> In x xs ->
  exists y, In (x, @inr E B y) (combine xs (map inr ys)).
Proof.
  revert ys. induction xs as [|a xs IH]; intros [|y ys] Hlen Hin;
    simpl in *; try contradiction; try discriminate.
  destruct Hin as [<- | Hin].
  - exists y. left. reflexivity.
  - destruct (IH ys) as (y' & Hy); [lia | exact Hin |].
    exists y'. right. exact Hy.
Qed.

(** ** Journal and topic terms *)

(** C4. In a run of [main] that returns, the formatted query of every
    journal and topic entry is the [term] of a search that was issued,
    is a key of the "Journal and Topic Searches" mapping of the
    results, and stands in the report as a term heading. *)
Theorem journal_topic_query_is_term_key cfg today s r s' journal topics :
  main cfg today s = (inr r, s') ->
  In (journal, topics) (OrderedDict.items (journal_topic_dict cfg)) ->
  let q := expand (JournalTopic journal topics) in
  (exists before ids after,
      trace s' = trace s ++ before
                 ++ Esearch (query_args (pub_days_ago cfg) "pubmed"
                               "Most Recent" 20 "edat" q) (inr ids)
                    :: after) /\
  (exists jp,
      OrderedDict.get (all_results_dict r) "Journal and Topic Searches"
      = Some jp /\
      In q (OrderedDict.keys jp)) /\
  occurs_in (term_heading q) (msg_body (run_message r)).
Proof.
  intros Hrun Hin q. apply main_shape in Hrun.
  destruct Hrun as (kp & ap & jp & i1 & i2 & i3 & evs & H). cbv zeta in H.
  destruct H as (_ & _ & L3 & Htr & _ & _ & K3 & Hr).
  assert (Hq : In q (OrderedDict.keys jp)).
  { rewrite K3. apply first_occurrences_In.
    change q with (journal_topic_query (journal, topics)).
    apply in_map. exact Hin. }
  split; [|split].
  - destruct (in_combine_inr (E := Exn) _ _ i3 L3 Hin) as (ids & Hc).
    apply (in_map
             (fun xr : (string * list string) * (Exn + list string) =>
                Esearch
                  (query_args (pub_days_ago cfg) "pubmed" "Most Recent" 20
                     "edat" (journal_topic_query (fst xr)))
                  (snd xr))) in Hc.
    apply in_split in Hc. destruct Hc as (c1 & c2 & Hc).
    unfold search_events in Htr at 3. rewrite Hc in Htr.
    match type of Htr with
    | _ = _ ++ ?A ++ ?B ++ _ => exists (A ++ B ++ c1), ids, (c2 ++ evs)
    end.
    rewrite Htr, <- !app_assoc. reflexivity.
  - exists jp. subst r. split; [reflexivity | exact Hq].
  - subst r. simpl.
    apply term_heading_in_body with "Journal and Topic Searches" jp.
    + simpl. auto.
    + exact Hq.
Qed.

(** ** Order of the term keys *)

(** C8, as amended. In a run of [main] that returns, the keys of each
    category of the results are the configured terms of that category
    in their configured order, provided the term keys of the category
    are pairwise distinct: the keywords, the authors, and the
    formatted queries of the journal and topic entries. *)
Theorem term_order_preserved_without_repeats cfg today s r s' :
  main cfg today s = (inr r, s') ->
  exists kp ap jp,
    all_results_dict r
    = [("Keyword Searches", kp); ("Author Searches", ap);
       ("Journal and Topic Searches", jp)] /\
    (NoDup (search_keywords cfg) ->
     OrderedDict.keys kp = search_keywords cfg) /\
    (NoDup (search_authors cfg) ->
     OrderedDict.keys ap = search_authors cfg) /\
    (NoDup (map term_key (journal_topic_terms (journal_topic_dict cfg))) ->
     OrderedDict.keys jp
     = map term_key (journal_topic_terms (journal_topic_dict cfg))).
Proof.
  intros Hrun. apply main_shape in Hrun.
  destruct Hrun as (kp & ap & jp & i1 & i2 & i3 & evs & H). cbv zeta in H.
  destruct H as (_ & _ & _ & _ & K1 & K2 & K3 & Hr).
  assert (Hjt : map term_key (journal_topic_terms (journal_topic_dict cfg))
                = map journal_topic_query
                    (OrderedDict.items (journal_topic_dict cfg))).
  { unfold journal_topic_terms. rewrite map_map. apply map_ext.
    intros [j t]. reflexivity. }
  exists kp, ap, jp. subst r. simpl. split; [reflexivity|].
  rewrite K1, K2, K3, Hjt.
  split; [|split]; apply first_occurrences_id.
Qed.

(** In general the keys of a category are its distinct term keys, each
    at its first occurrence. *)
Lemma term_keys_first_occurrences cfg today s r s' :
  main cfg today s = (inr r, s') ->
  exists kp ap jp,
    all_results_dict r
    = [("Keyword Searches", kp); ("Author Searches", ap);
       ("Journal and Topic Searches", jp)] /\
    OrderedDict.keys kp = first_occurrences (search_keywords cfg) /\
    OrderedDict.keys ap = first_occurrences (search_authors cfg) /\
    OrderedDict.keys jp
    = first_occurrences
        (map term_key (journal_topic_terms (journal_topic_dict cfg))).
Proof.
  intros Hrun. apply main_shape in Hrun.
  destruct Hrun as (kp & ap & jp & i1 & i2 & i3 & evs & H). cbv zeta in H.
  destruct H as (_ & _ & _ & _ & K1 & K2 & K3 & Hr).
  exists kp, ap, jp. subst r. simpl. split; [reflexivity|].
  rewrite K1, K2, K3. repeat (split; [reflexivity|]).
  f_equal. unfold journal_topic_terms. rewrite map_map. apply map_ext.
  intros [j t]. reflexivity.
Qed.

(** ** Repeated terms *)

Lemma combine_app_same {A B} (l1 l2 : list A) (m1 m2 : list B) :
  length m1 = length l1 ->
  combine (l1 ++ l2) (m1 ++ m2) = combine l1 m1 ++ combine l2 m2.
Proof.
  revert m1. induction l1 as [|a l1 IH]; intros [|b m1] H; simpl in *;
    try discriminate; [reflexivity|].
  rewrite IH; [reflexivity | lia].
Qed.

Lemma set_all_last_write (terms : list string) idss :
  length idss = length terms ->
  last_write_wins terms idss
    (set_all (combine terms idss) OrderedDict.empty).
Proof.
  intros Hlen. unfold last_write_wins.
  rewrite keys_set_all_empty, map_fst_combine_prefix
    by (rewrite Hlen; apply le_n).
  split; [apply first_occurrences_NoDup | split].
  - intros t Ht. apply first_occurrences_In. exact Ht.
  - intros pre t post ipre ids ipost -> Hnin -> Hpre.
    rewrite combine_app_same by exact Hpre. simpl.
    apply get_set_all_last. intros Hin. apply Hnin.
    apply in_map_iff in Hin. destruct Hin as ([k v] & Hk & Hin).
    simpl in Hk. subst k. apply in_combine_l in Hin. exact Hin.
Qed.

(** C9. [search_by_keywords] and [search_by_authors] issue one search
    per element of the term list, repeated terms included; the mapping
    they return has a single entry per term, and the entry of a
    repeated term holds the identifiers returned by the search of its
    last occurrence. *)
Theorem repeated_term_last_search_wins reldate database sort_type retmax
    datetype s :
  (forall keywords d s',
      search_by_keywords keywords reldate database sort_type retmax
        datetype s = (inr d, s') ->
      exists idss,
        length idss = length keywords /\
        trace s' = trace s
                   ++ search_events (fun t => expand (Keyword t)) reldate
                        database sort_type retmax datetype keywords
                        (map inr idss) /\
        last_write_wins keywords idss d) /\
  (forall authors d s',
      search_by_authors authors reldate database sort_type retmax
        datetype s = (inr d, s') ->
      exists idss,
        length idss = length authors /\
        trace s' = trace s
                   ++ search_events (fun t => expand (Author t)) reldate
                        database sort_type retmax datetype authors
                        (map inr idss) /\
        last_write_wins authors idss d).
Proof.
  split.
  - intros keywords d s' H. rewrite search_by_keywords_loop in H.
    apply search_loop_keys in H.
    destruct H as (idss & Hlen & Htr & Hd & _). rewrite map_id in Hd.
    exists idss. split; [exact Hlen | split; [exact Htr|]].
    subst d. apply set_all_last_write, Hlen.
  - intros authors d s' H. rewrite search_by_authors_loop in H.
    apply search_loop_keys in H.
    destruct H as (idss & Hlen & Htr & Hd & _). rewrite map_id in Hd.
    exists idss. split; [exact Hlen | split; [exact Htr|]].
    subst d. apply set_all_last_write, Hlen.
Qed.

(** ** The hit counter and the report *)

(** C5. The hit counter is the sum, over every category and every
    term, of the length of the publication list; putting one more
    publication into the list of any term raises it by one. *)
Theorem total_hits_is_sum_and_grows :
  (forall d : CategoryResults,
      total_hits d
      = Z.of_nat
          (list_sum
             (map (fun x : string * TermResults =>
                     list_sum
                       (map (fun y : string * list Publication =>
                               length (snd y)) (snd x))) d))) /\
  (forall (pre post : CategoryResults) group (tpre tpost : TermResults)
          term pubs1 pub pubs2,
      total_hits
        (pre ++ (group, tpre ++ (term, pubs1 ++ pub :: pubs2) :: tpost)
                :: post)
      = (total_hits
           (pre ++ (group, tpre ++ (term, pubs1 ++ pubs2) :: tpost)
                   :: post) + 1)%Z).
Proof.
  assert (Hsum : forall d : CategoryResults,
             total_hits d
             = Z.of_nat
                 (list_sum
                    (map (fun x : string * TermResults =>
                            list_sum
                              (map (fun y : string * list Publication =>
                                      length (snd y)) (snd x))) d))).
  { intros d. unfold total_hits, OrderedDict.items.
    rewrite total_hits_outer. reflexivity. }
  split; [exact Hsum|].
  intros. rewrite !Hsum, !map_app. simpl map.
  rewrite !list_sum_app. simpl list_sum. rewrite !map_app. simpl map.
  rewrite !list_sum_app. simpl list_sum. rewrite !length_app.
  simpl length. lia.
Qed.

Lemma render_section_heading N name (rd : TermResults) :
  render_section N (name, rd)
  = section_heading name
      +++ PyStr.join "" (concat (map (term_pieces N) rd)).
Proof. unfold render_section, section_pieces. apply join_empty_cons. Qed.

(** C6. Whatever the three term mappings hold, also when all of them
    are empty, [report_sections] has exactly three sections: Keyword
    Searches, Author Searches, Journal and Topic Searches, in this
    order, each opened by its heading; the body is the header, the
    three sections joined by [<br/>], and the tail. Every run of
    [main] that returns renders such a structure. *)
Theorem report_has_three_sections_in_order :
  (forall (kw au jt : TermResults) N,
      let all := OrderedDict.of_pairs
                   [("Keyword Searches", kw); ("Author Searches", au);
                    ("Journal and Topic Searches", jt)] in
      let pieces := fun rd : TermResults =>
                      PyStr.join "" (concat (map (term_pieces N) rd)) in
      report_sections all N
      = [section_heading "Keyword Searches" +++ pieces kw;
         section_heading "Author Searches" +++ pieces au;
         section_heading "Journal and Topic Searches" +++ pieces jt] /\
      construct_email_body all N
      = html_header +++ PyStr.nl
          +++ (section_heading "Keyword Searches" +++ pieces kw)
          +++ "<br/>"
          +++ (section_heading "Author Searches" +++ pieces au)
          +++ "<br/>"
          +++ (section_heading "Journal and Topic Searches" +++ pieces jt)
          +++ PyStr.nl +++ html_tail) /\
  (forall N,
      construct_email_body
        (OrderedDict.of_pairs
           [("Keyword Searches", []); ("Author Searches", []);
            ("Journal and Topic Searches", [])]) N
      = html_header +++ PyStr.nl
          +++ section_heading "Keyword Searches" +++ "<br/>"
          +++ section_heading "Author Searches" +++ "<br/>"
          +++ section_heading "Journal and Topic Searches"
          +++ PyStr.nl +++ html_tail) /\
  (forall cfg today s r s',
      main cfg today s = (inr r, s') ->
      exists kw au jt,
        all_results_dict r
        = OrderedDict.of_pairs
            [("Keyword Searches", kw); ("Author Searches", au);
             ("Journal and Topic Searches", jt)] /\
        msg_body (run_message r)
        = construct_email_body (all_results_dict r) (pub_days_ago cfg)).
Proof.
  split; [|split].
  - intros kw au jt N all pieces.
    assert (Hs : report_sections all N
                 = [section_heading "Keyword Searches" +++ pieces kw;
                    section_heading "Author Searches" +++ pieces au;
                    section_heading "Journal and Topic Searches"
                      +++ pieces jt]).
    { rewrite report_sections_map. subst all pieces.
      change (OrderedDict.of_pairs
                [("Keyword Searches", kw); ("Author Searches", au);
                 ("Journal and Topic Searches", jt)])
        with [("Keyword Searches", kw); ("Author Searches", au);
              ("Journal and Topic Searches", jt)].
      simpl map. rewrite !render_section_heading. reflexivity. }
    split; [exact Hs|].
    unfold construct_email_body. rewrite Hs, !join_three.
    rewrite !append_assoc. reflexivity.
  - intros N. reflexivity.
  - intros cfg today s r s' Hrun. apply main_inr in Hrun.
    destruct Hrun
      as (kr & ar & jr & kp & ap & jp & s1 & s2 & s3 & s4 & s5 & H).
    cbv zeta in H. destruct H as (_ & _ & _ & _ & _ & _ & Hr).
    exists kp, ap, jp. subst r. split; reflexivity.
Qed.

(** C7. A term with no publication is rendered as its heading followed
    by the notice "No results for 'term' in the last N days", both in
    the pieces the loop appends and in the section string of the
    report. *)
Theorem empty_term_renders_notice term N :
  (forall rs,
      append_term rs term [] N
      = rs ++ ["<h4>" +++ term +++ "</h4>" +++ PyStr.nl;
               "<p>No results for '" +++ term +++ "' in the last "
                 +++ PyStr.str_of_int N +++ " days</p>" +++ PyStr.nl]) /\
  (forall (dpre dpost : CategoryResults) section (tpre tpost : TermResults),
      report_sections
        (dpre ++ (section, tpre ++ (term, []) :: tpost) :: dpost) N
      = map (render_section N) dpre
        ++ [section_heading section
              +++ PyStr.join "" (concat (map (term_pieces N) tpre))
              +++ ("<h4>" +++ term +++ "</h4>" +++ PyStr.nl)
              +++ ("<p>No results for '" +++ term +++ "' in the last "
                     +++ PyStr.str_of_int N +++ " days</p>" +++ PyStr.nl)
              +++ PyStr.join "" (concat (map (term_pieces N) tpost))]
        ++ map (render_section N) dpost).
Proof.
  split.
  - intros rs. rewrite append_term_pieces. reflexivity.
  - intros. rewrite report_sections_map, map_app. simpl map.
    rewrite render_section_heading, map_app. simpl map.
    rewrite concat_app. simpl concat.
    rewrite join_empty_app, !join_empty_cons. reflexivity.
Qed.

(** ** The subject line and the report body *)

Lemma subject_text today n :
  PyStr.format "pub scraper report - {}" [today]
    +++ PyStr.format " ({} hits)" [n]
  = "pub scraper report - " +++ today +++ " (" +++ n +++ " hits)".
Proof. simpl. rewrite append_nil_r. reflexivity. Qed.

Lemma entry_lines_length pubs :
  length (concat (map entry_block pubs)) = 3 * length pubs.
Proof.
  induction pubs as [|p pubs IH]; [reflexivity|].
  simpl. lia.
Qed.

Lemma term_pieces_length N term pubs :
  length (term_pieces N (term, pubs))
  = 1 + (match pubs with [] => 1 | _ => 0 end) + 3 * length pubs.
Proof.
  unfold term_pieces. destruct pubs as [|p pubs]; [reflexivity|].
  cbn [length]. rewrite entry_lines_length. simpl length. lia.
Qed.

Lemma terms_pieces_length N (rd : TermResults) :
  length (concat (map (term_pieces N) rd))
  = length rd
    + length (filter (fun y : string * list Publication =>
                        match snd y with [] => true | _ => false end) rd)
    + 3 * list_sum (map (fun y : string * list Publication =>
                           length (snd y)) rd).
Proof.
  induction rd as [|[term pubs] rd IH]; [reflexivity|].
  cbn [map concat]. rewrite length_app, IH, term_pieces_length.
  destruct pubs; simpl; lia.
Qed.

Lemma section_pieces_length N section (rd : TermResults) :
  length (section_pieces N (section, rd))
  = 1 + length rd
    + length (filter (fun y : string * list Publication =>
                        match snd y with [] => true | _ => false end) rd)
    + 3 * list_sum (map (fun y : string * list Publication =>
                           length (snd y)) rd).
Proof.
  unfold section_pieces. cbn [length].
  rewrite terms_pieces_length. lia.
Qed.

Lemma report_pieces_length (d : CategoryResults) N :
  length (concat (map (fun x : string * TermResults =>
                         report_subsection (fst x) (snd x) N) d))
  = length d + term_count d + empty_term_count d
    + 3 * length (entry_blocks d).
Proof.
  rewrite entry_blocks_length. unfold term_count, empty_term_count.
  induction d as [|[section rd] d IH]; [reflexivity|].
  cbn [map concat fst snd].
  rewrite length_app, IH, report_subsection_pieces, section_pieces_length.
  simpl. lia.
Qed.

(** C10. In a run of [main] that returns, the count put in the subject
    line is the number of publication entries of the structure that
    the body renders: the body is laid out from the same structure,
    and the pieces appended for it are one heading per category, one
    per term, one notice per term without publication, and three lines
    per counted entry. *)
Theorem subject_count_matches_rendered_entries cfg today s r s' :
  main cfg today s = (inr r, s') ->
  let all := all_results_dict r in
  let N := pub_days_ago cfg in
  run_total_hits r = Z.of_nat (length (entry_blocks all)) /\
  msg_subject (run_message r)
  = "pub scraper report - " +++ today +++ " ("
      +++ PyStr.str_of_int (Z.of_nat (length (entry_blocks all)))
      +++ " hits)" /\
  msg_body (run_message r)
  = html_header +++ PyStr.nl
      +++ PyStr.join "<br/>" (map (render_section N) all)
      +++ PyStr.nl +++ html_tail /\
  length (concat (map (fun x : string * TermResults =>
                         report_subsection (fst x) (snd x) N) all))
  = length all + term_count all + empty_term_count all
    + 3 * length (entry_blocks all).
Proof.
  intros Hrun all N. apply main_inr in Hrun.
  destruct Hrun
    as (kr & ar & jr & kp & ap & jp & s1 & s2 & s3 & s4 & s5 & H).
  cbv zeta in H. destruct H as (_ & _ & _ & _ & _ & _ & Hr).
  subst all N. subst r. cbn [all_results_dict run_total_hits run_message
                             msg_subject msg_body].
  assert (Hcount : forall d : CategoryResults,
             total_hits d = Z.of_nat (length (entry_blocks d))).
  { intros d. unfold total_hits, OrderedDict.items.
    rewrite total_hits_outer, entry_blocks_length. reflexivity. }
  split; [apply Hcount | split; [|split]].
  - rewrite subject_text, Hcount. reflexivity.
  - apply construct_email_body_layout.
  - apply report_pieces_length.
Qed.

(** * Further properties of the source *)

(** ** Splitting and stripping *)

Lemma count_char_app c a b :
  PyStr.count_char c (a +++ b) = PyStr.count_char c a + PyStr.count_char c b.
Proof.
  induction a as [|x a IH]; simpl; [reflexivity|]. rewrite IH. lia.
Qed.

Lemma split_on_length sep s :
  length (PyStr.split_on sep s) = S (PyStr.count_char sep s).
Proof.
  induction s as [|c s IH]; simpl; [reflexivity|].
  destruct (Ascii.eqb c sep); simpl; [rewrite IH; reflexivity|].
  destruct (PyStr.split_on sep s) as [|w ws]; simpl in *; [discriminate|].
  exact IH.
Qed.

Lemma split_on_none sep s :
  PyStr.count_char sep s = 0 -> PyStr.split_on sep s = [s].
Proof.
  induction s as [|c s IH]; simpl; [reflexivity|].
  destruct (Ascii.eqb c sep); simpl; [discriminate|].
  intros H. rewrite (IH H). reflexivity.
Qed.

Lemma split_on_app_sep sep a b :
  PyStr.count_char sep a = 0 ->
  PyStr.split_on sep (a +++ String sep b) = a :: PyStr.split_on sep b.
Proof.
  induction a as [|c a IH]; simpl.
  - rewrite Ascii.eqb_refl. reflexivity.
  - destruct (Ascii.eqb c sep); simpl; [discriminate|].
    intros H. rewrite (IH H). reflexivity.
Qed.

Lemma join_split_on sep s :
  PyStr.join (String sep "") (PyStr.split_on sep s) = s.
Proof.
  induction s as [|c s IH]; [reflexivity|].
  pose proof (split_on_length sep s) as Hlen.
  cbn [PyStr.split_on]. destruct (Ascii.eqb c sep) eqn:E.
  - apply Ascii.eqb_eq in E. subst c.
    destruct (PyStr.split_on sep s) as [|w ws]; [discriminate|].
    rewrite join_cons, IH. reflexivity.
  - destruct (PyStr.split_on sep s) as [|w ws]; [discriminate|].
    destruct ws as [|w' ws].
    + change (PyStr.join (String sep "") [w]) with w in IH.
      subst w. reflexivity.
    + rewrite join_cons in IH |- *.
      change (String c w +++ ?x) with (String c (w +++ x)).
      rewrite IH. reflexivity.
Qed.

Lemma split_on_join sep ts :
  ts <> [] ->
  Forall (fun t => PyStr.count_char sep t = 0) ts ->
  PyStr.split_on sep (PyStr.join (String sep "") ts) = ts.
Proof.
  induction ts as [|t ts IH]; intros Hne Hall; [contradiction|].
  inversion Hall as [|? ? Ht Hts]; subst.
  destruct ts as [|t' ts].
  - simpl. apply split_on_none, Ht.
  - rewrite join_cons. change (String sep "" +++ ?x) with (String sep x).
    rewrite split_on_app_sep by exact Ht.
    rewrite IH; [reflexivity | discriminate | exact Hts].
Qed.

Lemma lstrip_pad p s :
  PyStr.all_space p = true -> PyStr.lstrip (p +++ s) = PyStr.lstrip s.
Proof.
  induction p as [|c p IH]; simpl; [reflexivity|].
  intros H. apply andb_prop in H. destruct H as [Hc Hp].
  rewrite Hc. apply IH, Hp.
Qed.

Lemma rstrip_all_space p : PyStr.all_space p = true -> PyStr.rstrip p = "".
Proof.
  induction p as [|c p IH]; simpl; [reflexivity|].
  intros H. apply andb_prop in H. destruct H as [Hc Hp].
  rewrite (IH Hp), Hc. reflexivity.
Qed.

Lemma rstrip_pad s p :
  PyStr.all_space p = true -> PyStr.rstrip (s +++ p) = PyStr.rstrip s.
Proof.
  intros Hp. induction s as [|c s IH]; simpl.
  - apply rstrip_all_space, Hp.
  - rewrite IH. reflexivity.
Qed.

Lemma rstrip_snoc s c :
  PyStr.isspace c = false ->
  PyStr.rstrip (s +++ String c "") = s +++ String c "".
Proof.
  intros Hc. induction s as [|x s IH]; simpl.
  - rewrite Hc. reflexivity.
  - rewrite IH. destruct s; reflexivity.
Qed.

Lemma drop_last_snoc s c : PyStr.drop_last (s +++ String c "") = s.
Proof.
  induction s as [|x s IH]; [reflexivity|].
  simpl. rewrite IH. destruct s; reflexivity.
Qed.

Lemma all_space_count c p :
  PyStr.all_space p = true -> PyStr.isspace c = false ->
  PyStr.count_char c p = 0.
Proof.
  intros Hp Hc. induction p as [|x p IH]; simpl; [reflexivity|].
  simpl in Hp. apply andb_prop in Hp. destruct Hp as [Hx Hp].
  rewrite (IH Hp). destruct (Ascii.eqb x c) eqn:E; [|reflexivity].
  apply Ascii.eqb_eq in E. subst x. congruence.
Qed.

(** The bracketed list of a settings line, padded or not, is read back
    as the topics it was written from. *)
Lemma topics_read_back pad1 pad2 ts :
  PyStr.all_space pad1 = true -> PyStr.all_space pad2 = true ->
  ts <> [] ->
  Forall (fun t => PyStr.count_char "," t = 0) ts ->
  PyStr.split_on ","
    (PyStr.inner
       (PyStr.strip (pad1 +++ "[" +++ PyStr.join "," ts +++ "]" +++ pad2)))
  = ts.
Proof.
  intros H1 H2 Hne Hts. unfold PyStr.strip.
  rewrite lstrip_pad by exact H1.
  change (PyStr.lstrip ("[" +++ ?x)) with ("[" +++ x).
  replace ("[" +++ PyStr.join "," ts +++ "]" +++ pad2)
    with (("[" +++ PyStr.join "," ts +++ "]") +++ pad2)
    by (rewrite !append_assoc; reflexivity).
  rewrite rstrip_pad by exact H2.
  replace ("[" +++ PyStr.join "," ts +++ "]")
    with (("[" +++ PyStr.join "," ts) +++ "]")
    by (rewrite !append_assoc; reflexivity).
  rewrite rstrip_snoc by reflexivity.
  change (PyStr.inner (("[" +++ ?x) +++ "]"))
    with (PyStr.drop_last (x +++ "]")).
  rewrite drop_last_snoc. apply split_on_join; assumption.
Qed.

(** ** [parse_journal_topics] *)

Lemma parse_journal_topics_loop l :
  parse_journal_topics l = for_each l journal_topic_step OrderedDict.empty.
Proof. reflexivity. Qed.

Lemma journal_topic_step_one x d :
  PyStr.count_char "=" x = 1 ->
  journal_topic_step x d
  = inr (OrderedDict.set d (fst (journal_topic_pair x))
           (snd (journal_topic_pair x))).
Proof.
  intros H. pose proof (split_on_length "=" x) as Hlen. rewrite H in Hlen.
  unfold journal_topic_step, journal_topic_pair.
  destruct (PyStr.split_on "=" x) as [|a [|b [|c l]]]; try discriminate.
  reflexivity.
Qed.

Lemma journal_topic_step_other x d :
  PyStr.count_char "=" x <> 1 -> journal_topic_step x d = inl ValueError.
Proof.
  intros H. pose proof (split_on_length "=" x) as Hlen.
  unfold journal_topic_step.
  destruct (PyStr.split_on "=" x) as [|a [|b [|c l]]]; try reflexivity.
  simpl in Hlen. exfalso. apply H. lia.
Qed.

Lemma journal_topic_loop_ok l : forall d,
  Forall (fun x => PyStr.count_char "=" x = 1) l ->
  for_each l journal_topic_step d
  = inr (set_all (map journal_topic_pair l) d).
Proof.
  induction l as [|x l IH]; intros d H; [reflexivity|].
  inversion H as [|? ? Hx Hl]; subst. simpl.
  rewrite (journal_topic_step_one x d Hx). simpl. apply IH, Hl.
Qed.

Lemma journal_topic_loop_raises l : forall d,
  Exists (fun x => PyStr.count_char "=" x <> 1) l ->
  for_each l journal_topic_step d = inl ValueError.
Proof.
  induction l as [|x l IH]; intros d H; [inversion H|]. simpl.
  destruct (Nat.eq_dec (PyStr.count_char "=" x) 1) as [Hx|Hx].
  - rewrite (journal_topic_step_one x d Hx). simpl. apply IH.
    inversion H; subst; [contradiction | assumption].
  - rewrite (journal_topic_step_other x d Hx). reflexivity.
Qed.

Lemma one_equals_or_not l :
  Forall (fun x => PyStr.count_char "=" x = 1) l \/
  Exists (fun x => PyStr.count_char "=" x <> 1) l.
Proof.
  induction l as [|x l [IH|IH]].
  - left. constructor.
  - destruct (Nat.eq_dec (PyStr.count_char "=" x) 1) as [Hx|Hx].
    + left. constructor; assumption.
    + right. apply Exists_cons_hd, Hx.
  - right. apply Exists_cons_tl, IH.
Qed.

(** X1. [parse_journal_topics] raises exactly when some line does not
    hold exactly one equals sign, and the exception is then the
    ValueError of the unpacking; otherwise it returns a dictionary. *)
Theorem parse_journal_topics_raises l :
  (forall e, parse_journal_topics l = inl e -> e = ValueError) /\
  ((exists e, parse_journal_topics l = inl e) <->
   Exists (fun x => PyStr.count_char "=" x <> 1) l) /\
  ((exists d, parse_journal_topics l = inr d) <->
   Forall (fun x => PyStr.count_char "=" x = 1) l).
Proof.
  rewrite parse_journal_topics_loop.
  destruct (one_equals_or_not l) as [H|H].
  - rewrite (journal_topic_loop_ok l _ H).
    split; [discriminate | split; split].
    + intros [e He]. discriminate.
    + intros Hex. exfalso. apply Exists_exists in Hex.
      destruct Hex as (x & Hin & Hx). rewrite Forall_forall in H.
      apply Hx, H, Hin.
    + intros _. exact H.
    + intros _. eexists. reflexivity.
  - rewrite (journal_topic_loop_raises l _ H).
    split; [intros e He; inversion He; reflexivity | split; split].
    + intros _. exact H.
    + intros _. eexists. reflexivity.
    + intros [d Hd]. discriminate.
    + intros Hall. exfalso. apply Exists_exists in H.
      destruct H as (x & Hin & Hx). rewrite Forall_forall in Hall.
      apply Hx, Hall, Hin.
Qed.

Lemma parse_journal_topics_inr l d :
  parse_journal_topics l = inr d ->
  Forall (fun x => PyStr.count_char "=" x = 1) l /\
  d = set_all (map journal_topic_pair l) OrderedDict.empty.
Proof.
  intros H. destruct (one_equals_or_not l) as [Hl|Hl].
  - split; [exact Hl|]. rewrite parse_journal_topics_loop in H.
    rewrite (journal_topic_loop_ok l _ Hl) in H. inversion H. reflexivity.
  - rewrite parse_journal_topics_loop in H.
    rewrite (journal_topic_loop_raises l _ Hl) in H. discriminate.
Qed.

Lemma set_keeps {V} (P : V -> Prop) (d : OrderedDict.t V) k v :
  Forall (fun kv => P (snd kv)) d -> P v ->
  Forall (fun kv => P (snd kv)) (OrderedDict.set d k v).
Proof.
  intros Hd Hv. induction d as [|[k' v'] d IH]; simpl.
  - constructor; [exact Hv | constructor].
  - inversion Hd as [|? ? Hk Hd']; subst.
    destruct (String.eqb k' k); constructor; auto.
Qed.

Lemma set_all_keeps {V} (P : V -> Prop) (kvs : list (string * V)) :
  forall d : OrderedDict.t V,
  Forall (fun kv => P (snd kv)) d ->
  Forall (fun kv => P (snd kv)) kvs ->
  Forall (fun kv => P (snd kv)) (set_all kvs d).
Proof.
  unfold set_all. induction kvs as [|[k v] kvs IH]; intros d Hd Hk; simpl;
    [exact Hd|].
  inversion Hk as [|? ? Hv Hk']; subst.
  apply IH; [apply set_keeps; assumption | exact Hk'].
Qed.

(** X2. In the dictionary that [parse_journal_topics] returns no journal
    occurs twice and no journal has an empty topic list: empty brackets
    give the one topic that is the empty string. *)
Theorem parse_journal_topics_invariants l d :
  parse_journal_topics l = inr d ->
  NoDup (OrderedDict.keys d) /\
  Forall (fun kv => snd kv <> []) d.
Proof.
  intros H. apply parse_journal_topics_inr in H. destruct H as [Hl ->].
  split.
  - rewrite keys_set_all_empty. apply first_occurrences_NoDup.
  - apply (set_all_keeps (fun v : list string => v <> [])); [constructor|].
    apply Forall_forall. intros kv Hin. apply in_map_iff in Hin.
    destruct Hin as (x & <- & Hx). rewrite Forall_forall in Hl.
    pose proof (split_on_length "=" x) as Hlen. rewrite (Hl x Hx) in Hlen.
    unfold journal_topic_pair.
    destruct (PyStr.split_on "=" x) as [|a [|b [|c r]]]; try discriminate.
    simpl. intros Hnil.
    pose proof (split_on_length "," (PyStr.inner (PyStr.strip b))) as Hs.
    rewrite Hnil in Hs. discriminate.
Qed.

Lemma journal_topic_pair_form j t :
  PyStr.count_char "=" (j +++ "=" +++ t) = 1 ->
  journal_topic_pair (j +++ "=" +++ t)
  = (j, PyStr.split_on "," (PyStr.inner (PyStr.strip t))).
Proof.
  intros H. rewrite count_char_app in H. simpl in H.
  assert (Hj : PyStr.count_char "=" j = 0) by lia.
  assert (Ht : PyStr.count_char "=" t = 0) by lia.
  unfold journal_topic_pair.
  change (j +++ "=" +++ t) with (j +++ String "=" t).
  rewrite split_on_app_sep by exact Hj.
  rewrite split_on_none by exact Ht. reflexivity.
Qed.

Lemma journal_topic_pair_line x :
  PyStr.count_char "=" x = 1 ->
  exists t, x = fst (journal_topic_pair x) +++ "=" +++ t.
Proof.
  intros H. pose proof (split_on_length "=" x) as Hlen. rewrite H in Hlen.
  pose proof (join_split_on "=" x) as Hj.
  unfold journal_topic_pair.
  destruct (PyStr.split_on "=" x) as [|a [|b [|c r]]]; try discriminate.
  exists b. simpl. rewrite <- Hj. reflexivity.
Qed.

(** X3. When a journal has several lines, the line that comes last
    decides its topics: they are the pieces between the commas of the
    text after the equals sign, stripped of surrounding whitespace and
    of its first and last character. *)
Theorem parse_journal_topics_last_line_wins pre post j t d :
  parse_journal_topics (pre ++ (j +++ "=" +++ t) :: post) = inr d ->
  (forall t', ~ In (j +++ "=" +++ t') post) ->
  OrderedDict.get d j
  = Some (PyStr.split_on "," (PyStr.inner (PyStr.strip t))).
Proof.
  intros H Hpost. apply parse_journal_topics_inr in H.
  destruct H as [Hl ->].
  apply Forall_app in Hl. destruct Hl as [_ Hl].
  inversion Hl as [|? ? Hx Hp]; subst.
  rewrite map_app. cbn [map]. rewrite (journal_topic_pair_form j t Hx).
  apply get_set_all_last. intros Hin. rewrite map_map in Hin.
  apply in_map_iff in Hin. destruct Hin as (y & Hy & Hin).
  rewrite Forall_forall in Hp.
  destruct (journal_topic_pair_line y (Hp y Hin)) as (t' & Ht').
  rewrite Hy in Ht'. subst y. exact (Hpost t' Hin).
Qed.

Lemma set_new {V} (d : OrderedDict.t V) k v :
  ~ In k (OrderedDict.keys d) -> OrderedDict.set d k v = d ++ [(k, v)].
Proof.
  induction d as [|[k' v'] d IH]; simpl; intros H; [reflexivity|].
  destruct (String.eqb k' k) eqn:E.
  - apply String.eqb_eq in E. exfalso. apply H. left. exact E.
  - rewrite IH; [reflexivity|]. intros Hin. apply H. right. exact Hin.
Qed.

Lemma set_all_distinct {V} (kvs : list (string * V)) :
  forall d : OrderedDict.t V,
  NoDup (OrderedDict.keys d ++ map fst kvs) -> set_all kvs d = d ++ kvs.
Proof.
  unfold set_all. induction kvs as [|[k v] kvs IH]; intros d H; simpl.
  - rewrite app_nil_r. reflexivity.
  - simpl in H. rewrite set_new.
    + rewrite IH; [rewrite <- app_assoc; reflexivity|].
      unfold OrderedDict.keys. rewrite map_app, <- app_assoc. exact H.
    + apply NoDup_remove_2 in H. intros Hin. apply H.
      apply in_or_app. left. exact Hin.
Qed.

Lemma count_char_join c sep ts :
  PyStr.count_char c sep = 0 ->
  Forall (fun t => PyStr.count_char c t = 0) ts ->
  PyStr.count_char c (PyStr.join sep ts) = 0.
Proof.
  intros Hsep Hts. induction ts as [|t ts IH]; [reflexivity|].
  inversion Hts as [|? ? Ht Hts']; subst.
  destruct ts as [|t' ts]; [exact Ht|].
  rewrite join_cons, !count_char_app, Ht, Hsep, IH; auto.
Qed.

(** X4. Writing and reading back. Lines written as
    [journal=[topic,...,topic]], with or without whitespace around the
    bracketed list, are parsed into the journals and topics they were
    written from, in the order of the lines, provided the journals are
    distinct and hold no equals sign, and every journal has at least one
    topic, none of which holds a comma or an equals sign. *)
Theorem parse_journal_topics_reads_back pad1 pad2 entries :
  PyStr.all_space pad1 = true -> PyStr.all_space pad2 = true ->
  NoDup (map fst entries) ->
  Forall (fun e : string * list string =>
            PyStr.count_char "=" (fst e) = 0 /\
            snd e <> [] /\
            Forall (fun t => PyStr.count_char "," t = 0 /\
                             PyStr.count_char "=" t = 0) (snd e))
    entries ->
  parse_journal_topics (map (journal_topic_line pad1 pad2) entries)
  = inr entries.
Proof.
  intros H1 H2 Hnd Hall.
  assert (Hp1 : PyStr.count_char "=" pad1 = 0)
    by (apply all_space_count; [exact H1 | reflexivity]).
  assert (Hp2 : PyStr.count_char "=" pad2 = 0)
    by (apply all_space_count; [exact H2 | reflexivity]).
  assert (Hline : forall e, In e entries ->
            PyStr.count_char "=" (journal_topic_line pad1 pad2 e) = 1 /\
            journal_topic_pair (journal_topic_line pad1 pad2 e) = e).
  { intros [j ts] Hin. rewrite Forall_forall in Hall.
    destruct (Hall _ Hin) as (Hj & Hne & Hts). simpl in Hj, Hne, Hts.
    assert (Hc : PyStr.count_char "=" (journal_topic_line pad1 pad2 (j, ts))
                 = 1).
    { unfold journal_topic_line. simpl fst. simpl snd.
      rewrite !count_char_app, Hj, Hp1, Hp2.
      rewrite (count_char_join "=" "," ts); [reflexivity | reflexivity |].
      apply Forall_forall. intros t Ht. rewrite Forall_forall in Hts.
      apply (Hts t Ht). }
    split; [exact Hc|].
    unfold journal_topic_line in *. simpl fst in *. simpl snd in *.
    rewrite (journal_topic_pair_form j _ Hc). f_equal.
    apply topics_read_back; try assumption.
    apply Forall_forall. intros t Ht. rewrite Forall_forall in Hts.
    apply (Hts t Ht). }
  rewrite parse_journal_topics_loop, journal_topic_loop_ok.
  - rewrite map_map.
    rewrite (map_ext_in _ (fun e => e)) by (intros e He; apply Hline, He).
    rewrite map_id. f_equal. apply set_all_distinct. exact Hnd.
  - apply Forall_forall. intros x Hx. apply in_map_iff in Hx.
    destruct Hx as (e & <- & He). apply Hline, He.
Qed.

(** ** [parse_search_file] *)

Lemma first_none s : PyStr.first s = None -> s = "".
Proof. destruct s; [reflexivity | discriminate]. Qed.

(** Once in the [while] loop, the code leaves it by an exception only:
    [line[0]] is evaluated before the test for the empty line. *)
Lemma block_never_ends lines : forall key d,
  OrderedDict.get d key <> None ->
  read_settings lines (InBlock key) d = inl IndexError.
Proof.
  induction lines as [|line rest IH]; intros key d Hkey; [reflexivity|].
  cbn [read_settings]. unfold block_line.
  destruct (PyStr.first (PyStr.strip line)) as [c|] eqn:F; [|reflexivity].
  destruct (Ascii.eqb c "#").
  - simpl. apply IH, Hkey.
  - destruct (String.eqb (PyStr.strip line) "") eqn:E.
    + apply String.eqb_eq in E. rewrite E in F. discriminate.
    + destruct (OrderedDict.get d key) as [l|] eqn:G; [|contradiction].
      simpl. apply IH. rewrite get_set_same. discriminate.
Qed.

Lemma file_loop lines : forall d,
  read_settings lines InFile d
  = if forallb plain_line lines then inr d else inl IndexError.
Proof.
  induction lines as [|line rest IH]; intros d; [reflexivity|].
  cbn [read_settings forallb]. unfold file_line, plain_line.
  destruct (PyStr.first line) as [c|]; [|reflexivity].
  destruct (Ascii.eqb c "#") eqn:Eh.
  - apply Ascii.eqb_eq in Eh. subst c. simpl. apply IH.
  - destruct (Ascii.eqb c "$").
    + cbn [negb andb].
      destruct (nth_error (PyStr.split (PyStr.strip line)) 1) as [key|];
        [|reflexivity].
      cbn [ebind fst snd]. apply block_never_ends.
      rewrite get_set_same. discriminate.
    + cbn [negb andb ebind fst snd]. apply IH.
Qed.

Lemma plain_line_spec line :
  plain_line line = true <->
  exists c, PyStr.first line = Some c /\ c <> "$"%char.
Proof.
  unfold plain_line. destruct (PyStr.first line) as [c|].
  - destruct (Ascii.eqb c "$") eqn:E; simpl.
    + apply Ascii.eqb_eq in E. split; [discriminate|].
      intros (c' & Hc & Hne). inversion Hc; subst. contradiction.
    + apply Ascii.eqb_neq in E. split; [|reflexivity].
      intros _. exists c. auto.
  - split; [discriminate|]. intros (c & Hc & _). discriminate.
Qed.

(** X5. [parse_search_file] returns only for a file in which no line
    starts with a dollar sign, and what it returns then is the empty
    dictionary. On a file with a header line it raises IndexError: the
    loop that reads the lines of a setting evaluates [line[0]] before it
    tests for the empty line, so the blank line that ends a block, and
    the end of the file, raise instead of leaving the loop. *)
Theorem parse_search_file_returns_no_setting lines :
  (Forall (fun line => exists c, PyStr.first line = Some c /\ c <> "$"%char)
     lines ->
   parse_search_file lines = inr OrderedDict.empty) /\
  (~ Forall (fun line => exists c, PyStr.first line = Some c /\ c <> "$"%char)
       lines ->
   parse_search_file lines = inl IndexError).
Proof.
  unfold parse_search_file. rewrite file_loop.
  destruct (forallb plain_line lines) eqn:E.
  - split; [reflexivity|]. intros H. exfalso. apply H.
    rewrite forallb_forall in E. apply Forall_forall.
    intros line Hin. apply plain_line_spec, E, Hin.
  - split; [|reflexivity]. intros H. exfalso.
    assert (Ht : forallb plain_line lines = true).
    { apply forallb_forall. intros line Hin. apply plain_line_spec.
      rewrite Forall_forall in H. apply H, Hin. }
    congruence.
Qed.

(** ** The getters of [entrezUtils.py] *)

Lemma get_url_path d :
  get_url d
  = (a <~ article_of d ;;
     v <~ getitem a "ELocationID" ;;
     url_tail <~ for_each (iterate v)
                   (fun elocation url_tail =>
                      t <~ attribute elocation "EIdType" ;;
                      if String.eqb t "doi" then inr (str elocation)
                      else inr url_tail)
                   EmptyString ;;
     inr ("dx.doi.org/" +++ url_tail)).
Proof.
  unfold get_url, article_of, ebind.
  destruct (getitem d "PubmedArticle") as [e|v1]; [reflexivity|].
  destruct (getitem0 v1) as [e|v2]; [reflexivity|].
  destruct (getitem v2 "MedlineCitation") as [e|v3]; reflexivity.
Qed.

Lemma get_authors_path d :
  get_authors d
  = (a <~ article_of d ;;
     v <~ getitem a "AuthorList" ;;
     for_each (iterate v)
       (fun author author_list =>
          last <~ getitem author "LastName" ;;
          left <~ add_str last " " ;;
          initials <~ getitem author "Initials" ;;
          name <~ str_add left initials ;;
          inr (author_list ++ [name]))
       []).
Proof.
  unfold get_authors, article_of, ebind.
  destruct (getitem d "PubmedArticle") as [e|v1]; [reflexivity|].
  destruct (getitem0 v1) as [e|v2]; [reflexivity|].
  destruct (getitem v2 "MedlineCitation") as [e|v3]; reflexivity.
Qed.

Lemma find_snoc {A} (f : A -> bool) l x :
  find f (l ++ [x])
  = match find f l with
    | Some y => Some y
    | None => if f x then Some x else None
    end.
Proof.
  induction l as [|a l IH]; simpl; [reflexivity|].
  destruct (f a); [reflexivity | exact IH].
Qed.

Lemma url_loop els : forall acc,
  Forall (fun el => exists t, attribute el "EIdType" = inr t) els ->
  for_each els
    (fun elocation url_tail =>
       t <~ attribute elocation "EIdType" ;;
       if String.eqb t "doi" then inr (str elocation) else inr url_tail)
    acc
  = inr match find is_doi (rev els) with
        | Some el => str el
        | None => acc
        end.
Proof.
  induction els as [|el els IH]; intros acc Hall; [reflexivity|].
  inversion Hall as [|? ? [t Ht] Hels]; subst.
  cbn [for_each rev]. rewrite find_snoc. unfold is_doi at 2.
  rewrite Ht. cbn [ebind].
  destruct (String.eqb t "doi"); cbn [ebind]; rewrite (IH _ Hels);
    destruct (find is_doi (rev els)); reflexivity.
Qed.

Lemma url_loop_raises pre : forall el post e acc,
  Forall (fun el => exists t, attribute el "EIdType" = inr t) pre ->
  attribute el "EIdType" = inl e ->
  for_each (pre ++ el :: post)
    (fun elocation url_tail =>
       t <~ attribute elocation "EIdType" ;;
       if String.eqb t "doi" then inr (str elocation) else inr url_tail)
    acc
  = inl e.
Proof.
  induction pre as [|x pre IH]; intros el post e acc Hall He.
  - simpl. rewrite He. reflexivity.
  - inversion Hall as [|? ? [t Ht] Hpre]; subst.
    cbn [app for_each]. rewrite Ht. cbn [ebind].
    destruct (String.eqb t "doi"); cbn [ebind]; apply IH; assumption.
Qed.

(** X6. On a record whose article has an [ELocationID], [get_url]
    returns [dx.doi.org/] followed by the text of the last location of
    type doi, and [dx.doi.org/] alone when no location has this type,
    provided every location has the attribute [EIdType]; the first
    location without it makes [get_url] raise. *)
Theorem get_url_last_doi d a v :
  article_of d = inr a ->
  getitem a "ELocationID" = inr v ->
  (Forall (fun el => exists t, attribute el "EIdType" = inr t) (iterate v) ->
   get_url d = inr ("dx.doi.org/" +++ last_doi (iterate v))) /\
  (forall pre el post e,
      iterate v = pre ++ el :: post ->
      Forall (fun el => exists t, attribute el "EIdType" = inr t) pre ->
      attribute el "EIdType" = inl e ->
      get_url d = inl e).
Proof.
  intros Ha Hv. rewrite get_url_path, Ha. cbn [ebind]. rewrite Hv.
  cbn [ebind]. split.
  - intros Hall. rewrite (url_loop _ _ Hall). reflexivity.
  - intros pre el post e Hit Hpre He. rewrite Hit.
    rewrite (url_loop_raises pre el post e _ Hpre He). reflexivity.
Qed.

Lemma authors_loop els : forall names acc,
  Forall2 named els names ->
  for_each els
    (fun author author_list =>
       last <~ getitem author "LastName" ;;
       left <~ add_str last " " ;;
       initials <~ getitem author "Initials" ;;
       name <~ str_add left initials ;;
       inr (author_list ++ [name]))
    acc
  = inr (acc ++ names).
Proof.
  induction els as [|el els IH]; intros names acc H;
    inversion H as [|? name ? names' Hn Hrest]; subst.
  - rewrite app_nil_r. reflexivity.
  - destruct Hn as (last & la & initials & ia & Hl & Hi & ->).
    cbn [for_each]. rewrite Hl. cbn [ebind add_str]. rewrite Hi.
    cbn [ebind str_add]. rewrite (IH names' _ Hrest).
    rewrite <- app_assoc, append_assoc. reflexivity.
Qed.

Lemma unnamed_raises author e acc :
  unnamed author e ->
  (last <~ getitem author "LastName" ;;
   left <~ add_str last " " ;;
   initials <~ getitem author "Initials" ;;
   name <~ str_add left initials ;;
   inr (acc ++ [name]))
  = inl e.
Proof.
  unfold unnamed.
  destruct (getitem author "LastName") as [e1|[last la|l la|d la]];
    cbn [ebind add_str]; try (intros ->; reflexivity).
  destruct (getitem author "Initials") as [e2|[i ia|l ia|d ia]];
    cbn [ebind str_add]; try (intros ->; reflexivity).
  intros [].
Qed.

Lemma authors_loop_raises pre : forall names el post e acc,
  Forall2 named pre names ->
  unnamed el e ->
  for_each (pre ++ el :: post)
    (fun author author_list =>
       last <~ getitem author "LastName" ;;
       left <~ add_str last " " ;;
       initials <~ getitem author "Initials" ;;
       name <~ str_add left initials ;;
       inr (author_list ++ [name]))
    acc
  = inl e.
Proof.
  induction pre as [|x pre IH]; intros names el post e acc H He;
    inversion H as [|? name ? names' Hn Hrest]; subst.
  - cbn [app for_each]. rewrite (unnamed_raises el e acc He). reflexivity.
  - destruct Hn as (last & la & initials & ia & Hl & Hi & ->).
    cbn [app for_each]. rewrite Hl. cbn [ebind add_str]. rewrite Hi.
    cbn [ebind str_add]. apply (IH names' el post e _ Hrest He).
Qed.

(** Every author has a name or has none. *)
Lemma named_or_unnamed author :
  (exists name, named author name) \/ (exists e, unnamed author e).
Proof.
  unfold named, unnamed.
  destruct (getitem author "LastName") as [e1|[last la|l la|d la]];
    try (right; eexists; reflexivity).
  destruct (getitem author "Initials") as [e2|[i ia|l ia|d ia]];
    try (right; eexists; reflexivity).
  left. exists (last +++ " " +++ i), last, la, i, ia. auto.
Qed.

(** Every list of authors is named throughout, or has a first author
    without a name. *)
Lemma authors_named_or_not els :
  (exists names, Forall2 named els names) \/
  (exists pre names author post e,
      els = pre ++ author :: post /\
      Forall2 named pre names /\
      unnamed author e).
Proof.
  induction els as [|el els IH].
  - left. exists []. constructor.
  - destruct (named_or_unnamed el) as [(name & Hn) | (e & He)].
    + destruct IH as [(names & H)
                     | (pre & names & author & post & e & Hl & Hp & He)].
      * left. exists (name :: names). constructor; assumption.
      * right. exists (el :: pre), (name :: names), author, post, e.
        split; [rewrite Hl; reflexivity | split; [|exact He]].
        constructor; assumption.
    + right. exists [], [], el, els, e.
      split; [reflexivity | split; [constructor | exact He]].
Qed.

(** X7. On a record whose article has an [AuthorList], [get_authors]
    returns one name per author, in the order of the list, each the last
    name, a space and the initials. The first author for whom this
    cannot be formed makes it raise, and no name is returned: KeyError
    when the [LastName] or the [Initials] is missing, as for a
    collective author, TypeError when one of them is not a string.
    Every list of authors falls under one of the two cases. *)
Theorem get_authors_names d a v :
  article_of d = inr a ->
  getitem a "AuthorList" = inr v ->
  (forall names, Forall2 named (iterate v) names ->
                 get_authors d = inr names) /\
  (forall pre names author post e,
      iterate v = pre ++ author :: post ->
      Forall2 named pre names ->
      unnamed author e ->
      get_authors d = inl e) /\
  ((exists names, Forall2 named (iterate v) names) \/
   (exists pre names author post e,
       iterate v = pre ++ author :: post /\
       Forall2 named pre names /\
       unnamed author e)).
Proof.
  intros Ha Hv. rewrite get_authors_path, Ha. cbn [ebind]. rewrite Hv.
  cbn [ebind]. split; [|split].
  - intros names H. rewrite (authors_loop _ names [] H). reflexivity.
  - intros pre names author post e Hit Hpre He. rewrite Hit.
    apply (authors_loop_raises pre names author post e [] Hpre He).
  - apply authors_named_or_not.
Qed.

(** ** Loops that fill a list *)

Lemma for_in_app {A S} (l1 l2 : list A) (f : A -> S -> Py S) : forall acc s,
  for_in (l1 ++ l2) f acc s = bind (for_in l1 f acc) (for_in l2 f) s.
Proof.
  induction l1 as [|x l1 IH]; intros acc s; [reflexivity|].
  rewrite <- app_comm_cons, for_in_cons. unfold bind at 1.
  rewrite for_in_cons. destruct (f x acc s) as [[e|a] s1]; [reflexivity|].
  rewrite IH. reflexivity.
Qed.

(** A loop whose body appends to the list it is given appends to the
    list it starts from. *)
Lemma for_in_accumulate {A B} (f : A -> list B -> Py (list B)) :
  (forall x acc s,
      f x acc s = match f x [] s with
                  | (inl e, s') => (inl e, s')
                  | (inr r, s') => (inr (acc ++ r), s')
                  end) ->
  forall l acc s,
    for_in l f acc s = match for_in l f [] s with
                       | (inl e, s') => (inl e, s')
                       | (inr r, s') => (inr (acc ++ r), s')
                       end.
Proof.
  intros Hf. induction l as [|x l IH]; intros acc s.
  - simpl. unfold ret. rewrite app_nil_r. reflexivity.
  - rewrite !for_in_cons, (Hf x acc s).
    destruct (f x [] s) as [[e|r] s1]; [reflexivity|].
    rewrite (IH (acc ++ r) s1), (IH r s1).
    destruct (for_in l f [] s1) as [[e|r'] s2]; [reflexivity|].
    simpl. rewrite app_assoc. reflexivity.
Qed.

(** ** [fetch_data_for_ID_list] *)

Lemma fetch_data_for_ID_list_loop ID_list database retmode rettype retmax :
  fetch_data_for_ID_list ID_list database retmode rettype retmax
  = for_in ID_list (fetch_data_step database retmode rettype retmax) [].
Proof. reflexivity. Qed.

Lemma fetch_data_step_run database retmode rettype retmax ID acc s :
  fetch_data_step database retmode rettype retmax ID acc s
  = match entrezFetch ID database retmode rettype retmax s with
    | (inl e, s') => (inl e, s')
    | (inr r, s') => (inr (acc ++ [r]), s')
    end.
Proof.
  unfold fetch_data_step, bind, ret.
  destruct (entrezFetch ID database retmode rettype retmax s)
    as [[e|r] s']; reflexivity.
Qed.

Lemma fetch_data_accumulates database retmode rettype retmax l acc s :
  for_in l (fetch_data_step database retmode rettype retmax) acc s
  = match for_in l (fetch_data_step database retmode rettype retmax) [] s with
    | (inl e, s') => (inl e, s')
    | (inr r, s') => (inr (acc ++ r), s')
    end.
Proof.
  apply for_in_accumulate. intros x a s0. rewrite !fetch_data_step_run.
  destruct (entrezFetch x database retmode rettype retmax s0)
    as [[e|r] s']; reflexivity.
Qed.

(** X8. Fetching a list of identifiers is fetching its first part and
    then, in the world so reached, the rest; the records come in the
    order of the identifiers, and a single identifier gives the record
    of its one [entrezFetch]. *)
Theorem fetch_data_for_ID_list_composes database retmode rettype retmax s :
  (forall l1 l2,
      fetch_data_for_ID_list (l1 ++ l2) database retmode rettype retmax s
      = match fetch_data_for_ID_list l1 database retmode rettype retmax s with
        | (inl e, s1) => (inl e, s1)
        | (inr r1, s1) =>
            match fetch_data_for_ID_list l2 database retmode rettype retmax
                    s1 with
            | (inl e, s2) => (inl e, s2)
            | (inr r2, s2) => (inr (r1 ++ r2), s2)
            end
        end) /\
  (forall ID,
      fetch_data_for_ID_list [ID] database retmode rettype retmax s
      = match entrezFetch ID database retmode rettype retmax s with
        | (inl e, s1) => (inl e, s1)
        | (inr r, s1) => (inr [r], s1)
        end).
Proof.
  split.
  - intros l1 l2. rewrite !fetch_data_for_ID_list_loop, for_in_app.
    unfold bind.
    destruct (for_in l1 _ [] s) as [[e|r1] s1]; [reflexivity|].
    apply fetch_data_accumulates.
  - intros ID. rewrite fetch_data_for_ID_list_loop, for_in_cons.
    rewrite fetch_data_step_run.
    destruct (entrezFetch ID database retmode rettype retmax s)
      as [[e|r] s1]; reflexivity.
Qed.

(** X9. [fetch_data_for_ID_list] has no handler around its fetches. When
    it returns, it returns one record per identifier; when a fetch
    raises, the exception leaves the function, the records fetched
    before are not returned and the identifiers after are not
    fetched. *)
Theorem fetch_data_for_ID_list_stops_at_first_failure ID_list database
    retmode rettype retmax :
  forall s,
    (forall recs s',
        fetch_data_for_ID_list ID_list database retmode rettype retmax s
        = (inr recs, s') ->
        length recs = length ID_list) /\
    (forall e s',
        fetch_data_for_ID_list ID_list database retmode rettype retmax s
        = (inl e, s') ->
        exists pre ID post recs s1,
          ID_list = pre ++ ID :: post /\
          fetch_data_for_ID_list pre database retmode rettype retmax s
          = (inr recs, s1) /\
          entrezFetch ID database retmode rettype retmax s1 = (inl e, s')).
Proof.
  induction ID_list as [|ID l IH]; intros s.
  - split; [intros recs s' H; inversion H; reflexivity|].
    intros e s' H. discriminate.
  - rewrite fetch_data_for_ID_list_loop, for_in_cons, fetch_data_step_run.
    destruct (entrezFetch ID database retmode rettype retmax s)
      as [[e1|r] s1] eqn:E.
    + split; [intros recs s' H; discriminate|].
      intros e s' H. inversion H; subst.
      exists [], ID, l, [], s. auto.
    + rewrite fetch_data_accumulates.
      rewrite <- fetch_data_for_ID_list_loop.
      destruct (IH s1) as [IHr IHe].
      destruct (fetch_data_for_ID_list l database retmode rettype retmax s1)
        as [[e2|r2] s2] eqn:E2.
      * split; [intros recs s' H; discriminate|].
        intros e s' H. inversion H; subst.
        destruct (IHe e s' eq_refl)
          as (pre & ID' & post & recs & s3 & Hl & Hpre & Hf).
        exists (ID :: pre), ID', post, ([r] ++ recs), s3.
        split; [rewrite Hl; reflexivity | split; [|exact Hf]].
        rewrite fetch_data_for_ID_list_loop, for_in_cons.
        rewrite fetch_data_step_run, E, fetch_data_accumulates.
        rewrite <- fetch_data_for_ID_list_loop, Hpre. reflexivity.
      * split; [|intros e s' H; discriminate].
        intros recs s' H. inversion H; subst.
        simpl. rewrite (IHr r2 s' eq_refl). reflexivity.
Qed.

(** ** A search that raises *)

Lemma search_loop_inl {A} (fmt key : A -> string) reldate database sort_type
    retmax datetype xs : forall d0 s e s',
  for_in xs (search_step fmt key reldate database sort_type retmax datetype)
    d0 s = (inl e, s') ->
  exists pre x post idss,
    xs = pre ++ x :: post /\
    length idss = length pre /\
    trace s' = trace s
               ++ search_events fmt reldate database sort_type retmax
                    datetype pre (map inr idss)
               ++ [Esearch (query_args reldate database sort_type retmax
                              datetype (fmt x)) (inl e)].
Proof.
  induction xs as [|x xs IH]; intros d0 s e s' H.
  - simpl in H. discriminate.
  - rewrite for_in_cons, search_step_run in H. simpl in H.
    destruct (Entrez_esearch _ (world s)) as [[e1|ids] w'] eqn:E.
    + inversion H; subst. exists [], x, xs, []. simpl. auto.
    + apply IH in H.
      destruct H as (pre & x' & post & idss & Hl & Hlen & Htr).
      exists (x :: pre), x', post, (ids :: idss). simpl in *.
      split; [rewrite Hl; reflexivity
             | split; [rewrite Hlen; reflexivity|]].
      rewrite Htr, <- app_assoc. reflexivity.
Qed.

(** X10. No search function catches the failure of a search. When the
    search of a term raises, the function raises the same exception
    right after that search: the terms before it were searched and their
    results are not returned, the terms after it are not searched. *)
Theorem search_failure_ends_the_search reldate database sort_type retmax
    datetype s e s' :
  (forall keywords,
      search_by_keywords keywords reldate database sort_type retmax datetype
        s = (inl e, s') ->
      exists pre t post idss,
        keywords = pre ++ t :: post /\
        length idss = length pre /\
        trace s' = trace s
                   ++ search_events (fun t => expand (Keyword t)) reldate
                        database sort_type retmax datetype pre
                        (map inr idss)
                   ++ [Esearch (query_args reldate database sort_type retmax
                                  datetype (expand (Keyword t))) (inl e)]) /\
  (forall authors,
      search_by_authors authors reldate database sort_type retmax datetype
        s = (inl e, s') ->
      exists pre t post idss,
        authors = pre ++ t :: post /\
        length idss = length pre /\
        trace s' = trace s
                   ++ search_events (fun t => expand (Author t)) reldate
                        database sort_type retmax datetype pre
                        (map inr idss)
                   ++ [Esearch (query_args reldate database sort_type retmax
                                  datetype (expand (Author t))) (inl e)]) /\
  (forall jt,
      search_by_journal_and_topic jt reldate database sort_type retmax
        datetype s = (inl e, s') ->
      exists pre x post idss,
        OrderedDict.items jt = pre ++ x :: post /\
        length idss = length pre /\
        trace s' = trace s
                   ++ search_events
                        (fun x => expand (JournalTopic (fst x) (snd x)))
                        reldate database sort_type retmax datetype pre
                        (map inr idss)
                   ++ [Esearch (query_args reldate database sort_type retmax
                                  datetype
                                  (expand (JournalTopic (fst x) (snd x))))
                         (inl e)]).
Proof.
  split; [|split].
  - intros keywords H. rewrite search_by_keywords_loop in H.
    apply search_loop_inl in H. exact H.
  - intros authors H. rewrite search_by_authors_loop in H.
    apply search_loop_inl in H. exact H.
  - intros jt H. rewrite search_by_journal_and_topic_loop in H.
    apply search_loop_inl in H. exact H.
Qed.

(** ** Batches of lookups *)

Lemma fetch_step_accumulates entrez_email l acc s :
  for_in l (fetch_step entrez_email) acc s
  = match for_in l (fetch_step entrez_email) [] s with
    | (inl e, s') => (inl e, s')
    | (inr r, s') => (inr (acc ++ r), s')
    end.
Proof.
  apply for_in_accumulate. intros ID a s0. rewrite !fetch_step_run.
  destruct (PubMedLookup ID entrez_email (world s0)) as [[e|l0] w1];
    [reflexivity|].
  destruct (Publication_of l0 w1) as [[e2|p] w2]; simpl;
    rewrite ?app_nil_r; reflexivity.
Qed.

(** X11. Looking up a list of identifiers is looking up its first part
    and then, in the world so reached, the rest: the publications of the
    two parts follow each other, and an exception of the first part
    keeps the second from being looked up. *)
Theorem fetch_pubs_from_ID_list_composes l1 l2 entrez_email s :
  fetch_pubs_from_ID_list (l1 ++ l2) entrez_email s
  = match fetch_pubs_from_ID_list l1 entrez_email s with
    | (inl e, s1) => (inl e, s1)
    | (inr pubs1, s1) =>
        match fetch_pubs_from_ID_list l2 entrez_email s1 with
        | (inl e, s2) => (inl e, s2)
        | (inr pubs2, s2) => (inr (pubs1 ++ pubs2), s2)
        end
    end.
Proof.
  rewrite !fetch_pubs_from_ID_list_loop, for_in_app. unfold bind.
  destruct (for_in l1 _ [] s) as [[e|r1] s1]; [reflexivity|].
  apply fetch_step_accumulates.
Qed.

(** ** The publications of each term *)

Lemma build_loop_terms entrez_email sd : forall d0 s d s',
  for_in sd (build_step entrez_email) d0 s = (inr d, s') ->
  exists outss : list (list (Lookup * (Exn + Publication))),
    Forall2 (fun kv outs => length outs = length (snd kv)) sd outss /\
    trace s' = trace s
               ++ concat (map (term_lookup_events entrez_email)
                            (combine sd outss)) /\
    d = set_all (map term_entry (combine sd outss)) d0.
Proof.
  induction sd as [|[k ids] sd IH]; intros d0 s d s' H.
  - simpl in H. inversion H; subst. exists [].
    simpl. rewrite app_nil_r. auto.
  - rewrite for_in_cons in H. unfold build_step at 1 in H.
    destruct (bind _ _ s) as [[e|d1] s1] eqn:E; [discriminate|].
    apply bind_inr in E. destruct E as (pubs & s0 & Hf & Hr).
    inversion Hr; subst. simpl in Hf.
    rewrite fetch_pubs_from_ID_list_loop in Hf.
    apply fetch_loop_inr in Hf.
    destruct Hf as (outs & Hlen & Htr & Hp & _). simpl in Hp.
    apply IH in H. destruct H as (outss & Hall & Htr' & Hd).
    exists (outs :: outss). split; [constructor; assumption | split].
    + rewrite Htr', Htr, <- app_assoc. reflexivity.
    + rewrite Hd, Hp. reflexivity.
Qed.

Lemma map_fst_term_entry
    (sd : list (string * list string))
    (outss : list (list (Lookup * (Exn + Publication)))) :
  length outss = length sd ->
  map fst (map term_entry (combine sd outss)) = map fst sd.
Proof.
  revert outss. induction sd as [|kv sd IH]; intros [|o outss] H;
    simpl in *; try discriminate; [reflexivity|].
  rewrite IH by lia. reflexivity.
Qed.

(** X12. When [build_result_dict] returns for a search dictionary, the
    lookups were made term by term in the order of the dictionary, each
    identifier of a term once and in order, and the result holds the
    same terms in the same order, each with exactly the publications
    that its own identifiers gave. *)
Theorem build_result_dict_terms search_dict entrez_email s d s' :
  NoDup (OrderedDict.keys search_dict) ->
  build_result_dict search_dict entrez_email s = (inr d, s') ->
  exists outss : list (list (Lookup * (Exn + Publication))),
    Forall2 (fun kv outs => length outs = length (snd kv))
      (OrderedDict.items search_dict) outss /\
    trace s' = trace s
               ++ concat (map (term_lookup_events entrez_email)
                            (combine (OrderedDict.items search_dict) outss))
    /\
    d = map term_entry (combine (OrderedDict.items search_dict) outss).
Proof.
  intros Hnd H. rewrite build_result_dict_loop in H.
  apply build_loop_terms in H. destruct H as (outss & Hall & Htr & Hd).
  exists outss. split; [exact Hall | split; [exact Htr|]].
  rewrite Hd. apply (set_all_distinct _ OrderedDict.empty).
  simpl. rewrite map_fst_term_entry; [exact Hnd|].
  symmetry. apply (Forall2_length Hall).
Qed.

(** ** What the report shows of a publication *)

Lemma piece_in_body N (d : CategoryResults) section rd piece :
  In (section, rd) d ->
  In piece (section_pieces N (section, rd)) ->
  occurs_in piece (construct_email_body d N).
Proof.
  intros Hsec Hpiece. rewrite construct_email_body_layout.
  apply occurs_in_left, occurs_in_left, occurs_in_right.
  apply occurs_in_trans with (render_section N (section, rd)).
  - apply join_occurs, Hpiece.
  - apply join_occurs, in_map, Hsec.
Qed.

Lemma entry_line_in_pieces N section (rd : TermResults) term pubs pub line :
  In (term, pubs) rd -> In pub pubs -> In line (entry_block pub) ->
  In line (section_pieces N (section, rd)).
Proof.
  intros Hterm Hpub Hline. simpl. right. apply in_concat.
  exists (term_pieces N (term, pubs)). split; [apply in_map, Hterm|].
  unfold term_pieces. right.
  destruct pubs as [|p ps]; [contradiction|].
  apply in_concat. exists (entry_block pub).
  split; [apply in_map, Hpub | exact Hline].
Qed.

(** X13. The report leaves out no publication of the structure it is
    given: the three lines of the entry of every publication of every
    term occur in the body, and in them the url, the title, the journal
    and the authors stand as they are, without any escaping. *)
Theorem every_publication_is_in_the_report N (d : CategoryResults)
    section rd term pubs pub :
  In (section, rd) d -> In (term, pubs) rd -> In pub pubs ->
  (forall line, In line (entry_block pub) ->
                occurs_in line (construct_email_body d N)) /\
  occurs_in (url pub) (construct_email_body d N) /\
  occurs_in (title pub) (construct_email_body d N) /\
  occurs_in (journal pub) (construct_email_body d N) /\
  occurs_in (authors pub) (construct_email_body d N).
Proof.
  intros Hsec Hterm Hpub.
  assert (Hline : forall line, In line (entry_block pub) ->
                    occurs_in line (construct_email_body d N)).
  { intros line Hin. apply (piece_in_body N d section rd line Hsec).
    apply (entry_line_in_pieces N section rd term pubs pub line);
      assumption. }
  split; [exact Hline|].
  split; [|split; [|split]].
  - apply occurs_in_trans
      with ("<p><a href=" +++ PyStr.dq +++ url pub +++ PyStr.dq +++ "> <b>"
              +++ title pub +++ "</b> </a></p>" +++ PyStr.nl);
      [|apply Hline; left; reflexivity].
    apply occurs_in_left, occurs_in_left, occurs_in_right, occurs_in_refl.
  - apply occurs_in_trans
      with ("<p><a href=" +++ PyStr.dq +++ url pub +++ PyStr.dq +++ "> <b>"
              +++ title pub +++ "</b> </a></p>" +++ PyStr.nl);
      [|apply Hline; left; reflexivity].
    do 5 apply occurs_in_left. apply occurs_in_right, occurs_in_refl.
  - apply occurs_in_trans
      with ("<p><i>" +++ journal pub +++ "</i></p>" +++ PyStr.nl);
      [|apply Hline; right; left; reflexivity].
    apply occurs_in_left, occurs_in_right, occurs_in_refl.
  - apply occurs_in_trans
      with ("<p>" +++ authors pub +++ "</p>" +++ PyStr.nl);
      [|apply Hline; right; right; left; reflexivity].
    apply occurs_in_left, occurs_in_right, occurs_in_refl.
Qed.

(** ** Keyword queries *)

Lemma no_space_app a b :
  PyStr.no_space (a +++ b) = PyStr.no_space a && PyStr.no_space b.
Proof.
  induction a as [|c a IH]; simpl; [reflexivity|].
  rewrite IH, andb_assoc. reflexivity.
Qed.

Lemma no_space_join_plus ws :
  Forall (fun w => PyStr.no_space w = true) ws ->
  PyStr.no_space (PyStr.join "+" ws) = true.
Proof.
  induction ws as [|w ws IH]; intros H; [reflexivity|].
  inversion H as [|? ? Hw Hws]; subst.
  destruct ws as [|w' ws]; [exact Hw|].
  rewrite join_cons, !no_space_app, Hw, (IH Hws). reflexivity.
Qed.

Lemma keyword_query_no_space t :
  PyStr.no_space (expand (Keyword t)) = true.
Proof.
  unfold expand. rewrite no_space_app, no_space_join_plus; [reflexivity|].
  destruct (split_words t) as [Hw _].
  apply Forall_forall. intros w Hin. rewrite Forall_forall in Hw.
  apply (Hw w Hin).
Qed.

(** X14. Whatever whitespace the configured keywords hold, no query that
    [search_by_keywords] sends holds a whitespace character: the words
    of a keyword are joined by plus signs. *)
Theorem keyword_queries_hold_no_whitespace keywords reldate database
    sort_type retmax datetype s :
  exists evs,
    trace (snd (search_by_keywords keywords reldate database sort_type
                  retmax datetype s))
    = trace s ++ evs /\
    Forall search_without_space evs.
Proof.
  rewrite search_by_keywords_loop.
  destruct (for_in keywords _ _ s) as [r s'] eqn:E.
  apply search_loop_any in E. destruct E as (rs & _ & Htr & _).
  eexists. split; [exact Htr|].
  unfold search_events. apply Forall_forall. intros ev Hin.
  apply in_map_iff in Hin. destruct Hin as ([t o] & <- & _).
  simpl. apply keyword_query_no_space.
Qed.

(** ** The order of the remote calls of [main] *)







(** ** Lookups that all fail *)

Lemma fetch_loop_all_fail entrez_email ID_list :
  (forall l w, exists e w', Publication_of l w = (inl e, w')) ->
  forall acc s pubs s',
    for_in ID_list (fetch_step entrez_email) acc s = (inr pubs, s') ->
    pubs = acc.
Proof.
  intros Hfail. induction ID_list as [|ID ids IH]; intros acc s pubs s' H.
  - simpl in H. inversion H. reflexivity.
  - rewrite for_in_cons, fetch_step_run in H.
    destruct (PubMedLookup ID entrez_email (world s)) as [[e|l] w1];
      [discriminate|].
    destruct (Hfail l w1) as (e2 & w2 & E). rewrite E in H.
    apply IH in H. exact H.
Qed.

Lemma build_loop_all_fail entrez_email sd :
  (forall l w, exists e w', Publication_of l w = (inl e, w')) ->
  forall d0 s d s',
    for_in sd (build_step entrez_email) d0 s = (inr d, s') ->
    Forall (fun kv : string * list Publication => snd kv = []) d0 ->
    Forall (fun kv : string * list Publication => snd kv = []) d.
Proof.
  intros Hfail. induction sd as [|[k ids] sd IH]; intros d0 s d s' H Hd0.
  - simpl in H. inversion H; subst. exact Hd0.
  - rewrite for_in_cons in H. unfold build_step at 1 in H.
    destruct (bind _ _ s) as [[e|d1] s1] eqn:E; [discriminate|].
    apply bind_inr in E. destruct E as (pubs & s0 & Hf & Hr).
    inversion Hr; subst. simpl in Hf.
    rewrite fetch_pubs_from_ID_list_loop in Hf.
    apply (fetch_loop_all_fail entrez_email ids Hfail) in Hf. subst pubs.
    apply IH in H; [exact H|].
    apply (set_keeps (fun v : list Publication => v = [])); auto.
Qed.

Lemma no_hits (d : CategoryResults) :
  Forall (fun sec : string * TermResults =>
            Forall (fun t : string * list Publication => snd t = [])
              (snd sec)) d ->
  total_hits d = 0%Z.
Proof.
  intros H. unfold total_hits, OrderedDict.items. rewrite total_hits_outer.
  replace (list_sum _) with 0; [reflexivity|]. symmetry.
  induction H as [|[sec rd] d Hrd Hd IH]; [reflexivity|].
  simpl. rewrite IH.
  replace (list_sum _) with 0; [reflexivity|]. symmetry.
  simpl in Hrd. clear -Hrd.
  induction Hrd as [|[t pubs] rd Ht Hrd IH]; [reflexivity|].
  simpl in *. rewrite Ht, IH. reflexivity.
Qed.

(** X16. Lookups that all fail cannot be told from searches that find
    nothing. When no [Publication] can be constructed and [main]
    returns, every term has an empty publication list, the subject
    counts no hit, and the body shows, for every term, the notice that
    there are no results. *)
Theorem failed_lookups_read_as_no_results cfg today s r s' :
  (forall l w, exists e w', Publication_of l w = (inl e, w')) ->
  main cfg today s = (inr r, s') ->
  run_total_hits r = 0%Z /\
  msg_subject (run_message r)
  = "pub scraper report - " +++ today +++ " (0 hits)" /\
  forall section rd term pubs,
    In (section, rd) (all_results_dict r) -> In (term, pubs) rd ->
    pubs = [] /\
    occurs_in (no_results_notice term (pub_days_ago cfg))
      (msg_body (run_message r)).
Proof.
  intros Hfail H. apply main_inr in H.
  destruct H as (kr & ar & jr & kp & ap & jp & s1 & s2 & s3 & s4 & s5 & H).
  cbv zeta in H. destruct H as (_ & _ & _ & H4 & H5 & H6 & ->).
  rewrite build_result_dict_loop in H4, H5, H6.
  apply (build_loop_all_fail _ _ Hfail) in H4; [|constructor].
  apply (build_loop_all_fail _ _ Hfail) in H5; [|constructor].
  apply (build_loop_all_fail _ _ Hfail) in H6; [|constructor].
  set (all := [("Keyword Searches", kp); ("Author Searches", ap);
               ("Journal and Topic Searches", jp)]).
  assert (Hall : Forall (fun sec : string * TermResults =>
                           Forall (fun t : string * list Publication =>
                                     snd t = []) (snd sec)) all)
    by (repeat constructor; assumption).
  cbn [all_results_dict run_total_hits run_message msg_subject msg_body].
  fold all. rewrite (no_hits all Hall).
  split; [reflexivity | split].
  - rewrite subject_text. reflexivity.
  - intros section rd term pubs Hsec Hterm.
    rewrite Forall_forall in Hall. specialize (Hall _ Hsec). simpl in Hall.
    rewrite Forall_forall in Hall. specialize (Hall _ Hterm). simpl in Hall.
    subst pubs. split; [reflexivity|].
    apply (piece_in_body _ all section rd _ Hsec).
    simpl. right. apply in_concat.
    exists (term_pieces (pub_days_ago cfg) (term, [])).
    split; [apply in_map, Hterm | simpl; auto].
Qed.

End Model.

Arguments mkState {World Exn Lookup} world Entrez_email trace.
Arguments world {World Exn Lookup} s.
Arguments Entrez_email {World Exn Lookup} s.
Arguments trace {World Exn Lookup} s.
Arguments Esearch {Exn Lookup} a r.
Arguments Elookup {Exn Lookup} ID credentials r.
Arguments Epublication {Exn Lookup} l r.
Arguments lookup_credentials {Exn Lookup} evs.
Arguments search_by_keywords {World Exn Lookup} Entrez_esearch.
Arguments search_by_authors {World Exn Lookup} Entrez_esearch.
Arguments search_by_journal_and_topic {World Exn Lookup} Entrez_esearch.
Arguments fetch_pubs_from_ID_list {World Exn Lookup} PubMedLookup
  Publication_of.
Arguments build_result_dict {World Exn Lookup} PubMedLookup Publication_of.
Arguments main {World Exn Lookup} Entrez_esearch PubMedLookup Publication_of.

(** ** Scripted runs *)

(** Every run below starts in the state [mkState 0 None []]: no remote
    call made, [Entrez.email] not set, an empty trace. *)

(** The templates on concrete terms, the degenerate ones included. *)
Example expand_examples :
  expand (Keyword "  single  cell RNA ") = "single+cell+RNA[Title/Abstract]" /\
  expand (Keyword "") = "[Title/Abstract]" /\
  expand (Author "Smith J") = "Smith J[Author]" /\
  expand (JournalTopic "Nature" ["aging"; "longevity"])
  = "Nature[Journal] AND (aging OR longevity)" /\
  expand (JournalTopic "Cell" []) = "Cell[Journal] AND ()".
Proof. repeat split; reflexivity. Qed.

Example split_examples :
  PyStr.split "  single  cell RNA " = ["single"; "cell"; "RNA"] /\
  PyStr.split "" = [] /\
  PyStr.split ("a" +++ PyStr.nl +++ "b") = ["a"; "b"].
Proof. repeat split; reflexivity. Qed.

Example format_examples :
  PyStr.format "<p>No results for '{}' in the last {} days</p>"
    ["CRISPR"; PyStr.str_of_int 7]
  = "<p>No results for 'CRISPR' in the last 7 days</p>" /\
  PyStr.str_of_int 0 = "0" /\
  PyStr.str_of_int (-3) = "-3" /\
  PyStr.str_of_int 120 = "120".
Proof. repeat split; reflexivity. Qed.

(** The scenario of the specification: one keyword, two identifiers
    found, the second of which cannot be turned into a publication. *)
Example crispr_scenario :
  exists r s',
    main Demo.esearch Demo.lookup Demo.publication
      (Demo.cfg ["CRISPR"] [] []) Demo.today (mkState 0 None []) = (inr r, s') /\
    all_results_dict r
    = [("Keyword Searches", [("CRISPR", [Demo.pub_T1])]);
       ("Author Searches", []); ("Journal and Topic Searches", [])] /\
    run_total_hits r = 1%Z /\
    msg_subject (run_message r) = "pub scraper report - 2017/10/11 (1 hits)" /\
    msg_body (run_message r)
    = html_header +++ PyStr.nl
        +++ section_heading "Keyword Searches"
        +++ term_heading "CRISPR"
        +++ PyStr.join "" (entry_block Demo.pub_T1)
        +++ "<br/>" +++ section_heading "Author Searches"
        +++ "<br/>" +++ section_heading "Journal and Topic Searches"
        +++ PyStr.nl +++ html_tail.
Proof.
  eexists. eexists. split; [vm_compute; reflexivity|].
  repeat split; reflexivity.
Qed.

(** A failed search is not caught: the run ends with its exception. *)
Example failed_search_ends_the_run :
  fst (main Demo.esearch Demo.lookup Demo.publication
      (Demo.cfg ["CRISPR"] ["down"] []) Demo.today (mkState 0 None [])) = inl "HTTP Error 500".
Proof. reflexivity. Qed.

(** Counterexample to C1 as stated. The lookup of the second identifier
    fails inside the [PubMedLookup] constructor: the exception leaves
    [fetch_pubs_from_ID_list], the publication already fetched is lost
    and the third identifier is never looked up. *)
Lemma lookup_error_escapes_fetch_pubs_from_ID_list :
  fetch_pubs_from_ID_list Demo.lookup Demo.publication
      ["111"; "999"; "333"] "me@example.org" (mkState 0 None [])
  = (inl "no record",
     mkState 3 None
       [Elookup "111" "me@example.org" (inr "111");
        Epublication "111" (inr Demo.pub_T1);
        Elookup "999" "me@example.org" (inl "no record")]).
Proof. reflexivity. Qed.

(** The lookups of the three identifiers return, although the lookup
    of another identifier would not. *)
Lemma fetch_pubs_from_ID_list_best_effort_witness :
  exists pubs s',
    fetch_pubs_from_ID_list Demo.lookup Demo.publication
      ["111"; "222"; "333"] "me@example.org" (mkState 0 None [])
    = (inr pubs, s').
Proof.
  apply (proj2 (fetch_pubs_from_ID_list_best_effort Demo.World Demo.Exn
                  Demo.Lookup Demo.lookup Demo.publication
                  ["111"; "222"; "333"] "me@example.org"
                  (mkState 0 None []))).
  intros ID w [<-|[<-|[<-|[]]]]; eexists; eexists; reflexivity.
Defined.

(** What that run returns: the second identifier is dropped. *)
Example fetch_drops_failed_publication :
  fetch_pubs_from_ID_list Demo.lookup Demo.publication
    ["111"; "222"; "333"] "me@example.org" (mkState 0 None [])
  = (inr [Demo.pub_T1;
          mkPublication "dx.doi.org/333" "title 333" "J" "[]"],
     mkState 6 None
       [Elookup "111" "me@example.org" (inr "111");
        Epublication "111" (inr Demo.pub_T1);
        Elookup "222" "me@example.org" (inr "222");
        Epublication "222" (inl "bad record");
        Elookup "333" "me@example.org" (inr "333");
        Epublication "333"
          (inr (mkPublication "dx.doi.org/333" "title 333" "J" "[]"))]).
Proof. reflexivity. Qed.

(** C2 fails on the code. [main] hands the database name, not the
    configured address, to [build_result_dict]: in the run configured
    with the address me@example.org, [Entrez.email] is set to that
    address and both lookups are given the credentials pubmed. *)
Theorem main_gives_lookups_the_database_name :
  exists r s',
    main Demo.esearch Demo.lookup Demo.publication
      (Demo.cfg ["CRISPR"] [] []) Demo.today (mkState 0 None []) = (inr r, s') /\
    entrez_email_address (Demo.cfg ["CRISPR"] [] []) = "me@example.org" /\
    Entrez_email s' = Some "me@example.org" /\
    lookup_credentials (trace s') = ["pubmed"; "pubmed"].
Proof.
  eexists. eexists. split; [vm_compute; reflexivity|].
  repeat split; reflexivity.
Qed.

Lemma journal_topic_query_is_term_key_witness :
  exists r s',
    main Demo.esearch Demo.lookup Demo.publication
      (Demo.cfg [] [] Demo.nature) Demo.today (mkState 0 None []) = (inr r, s') /\
    (exists before ids after,
        trace s'
        = trace (mkState 0 None []) ++ before
          ++ Esearch (query_args 7 "pubmed" "Most Recent" 20 "edat"
                        "Nature[Journal] AND (aging OR longevity)")
               (inr ids) :: after) /\
    (exists jp,
        OrderedDict.get (all_results_dict r) "Journal and Topic Searches"
        = Some jp /\
        In "Nature[Journal] AND (aging OR longevity)" (OrderedDict.keys jp)) /\
    occurs_in
      ("<h4>Nature[Journal] AND (aging OR longevity)</h4>" +++ PyStr.nl)
      (msg_body (run_message r)).
Proof.
  eexists. eexists. split; [vm_compute; reflexivity|].
  apply (journal_topic_query_is_term_key Demo.World Demo.Exn Demo.Lookup
           Demo.esearch Demo.lookup Demo.publication
           (Demo.cfg [] [] Demo.nature) Demo.today (mkState 0 None []) _ _
           "Nature" ["aging"; "longevity"]).
  - vm_compute. reflexivity.
  - left. reflexivity.
Defined.

(** Counterexample to C8 as stated. With the keyword a configured twice
    before b, the second key of the keyword mapping is b, while the
    second configured keyword is a. *)
Lemma repeated_keyword_shifts_later_keys :
  exists r s' kp,
    main Demo.esearch Demo.lookup Demo.publication
      (Demo.cfg ["a"; "a"; "b"] [] []) Demo.today (mkState 0 None []) = (inr r, s') /\
    OrderedDict.get (all_results_dict r) "Keyword Searches" = Some kp /\
    OrderedDict.keys kp = ["a"; "b"] /\
    nth_error (OrderedDict.keys kp) 1 = Some "b" /\
    nth_error ["a"; "a"; "b"] 1 = Some "a".
Proof.
  eexists. eexists. eexists. split; [vm_compute; reflexivity|].
  repeat split; reflexivity.
Qed.

Lemma term_order_preserved_without_repeats_witness :
  exists r s' kp ap jp,
    main Demo.esearch Demo.lookup Demo.publication
      (Demo.cfg ["CRISPR"; "aging"] ["Smith J"] Demo.nature) Demo.today (mkState 0 None [])
    = (inr r, s') /\
    all_results_dict r
    = [("Keyword Searches", kp); ("Author Searches", ap);
       ("Journal and Topic Searches", jp)] /\
    OrderedDict.keys kp = ["CRISPR"; "aging"] /\
    OrderedDict.keys ap = ["Smith J"] /\
    OrderedDict.keys jp = ["Nature[Journal] AND (aging OR longevity)"].
Proof.
  eexists. eexists.
  assert (Hrun : main Demo.esearch Demo.lookup Demo.publication
                   (Demo.cfg ["CRISPR"; "aging"] ["Smith J"] Demo.nature)
                   Demo.today (mkState 0 None [])
                 = (inr _, _)) by (vm_compute; reflexivity).
  destruct (term_order_preserved_without_repeats Demo.World Demo.Exn
              Demo.Lookup Demo.esearch Demo.lookup Demo.publication
              _ _ _ _ _ Hrun) as (kp & ap & jp & Hall & Hk & Ha & Hj).
  exists kp, ap, jp. split; [exact Hrun | split; [exact Hall|]].
  split; [|split].
  - apply Hk. repeat constructor; simpl; intuition discriminate.
  - apply Ha. repeat constructor; simpl; intuition discriminate.
  - apply Hj. repeat constructor; simpl; intuition discriminate.
Defined.

(** The keyword a searched twice: two searches, one entry, holding the
    identifiers of the second search. *)
Example repeated_keyword_keeps_last_result :
  search_by_keywords (Lookup := Demo.Lookup) Demo.esearch ["a"; "a"; "b"] 7
    "pubmed" "Most Recent"
    20 "edat" (mkState 0 None [])
  = (inr [("a", ["1"]); ("b", ["2"])],
     mkState 3 None
       [Esearch (query_args 7 "pubmed" "Most Recent" 20 "edat"
                   "a[Title/Abstract]") (inr ["0"]);
        Esearch (query_args 7 "pubmed" "Most Recent" 20 "edat"
                   "a[Title/Abstract]") (inr ["1"]);
        Esearch (query_args 7 "pubmed" "Most Recent" 20 "edat"
                   "b[Title/Abstract]") (inr ["2"])]).
Proof. reflexivity. Qed.

Lemma subject_count_matches_rendered_entries_witness :
  exists r s',
    main Demo.esearch Demo.lookup Demo.publication
      (Demo.cfg ["CRISPR"; "aging"] [] Demo.nature) Demo.today (mkState 0 None [])
    = (inr r, s') /\
    run_total_hits r = Z.of_nat (length (entry_blocks (all_results_dict r))) /\
    msg_subject (run_message r)
    = "pub scraper report - " +++ "2017/10/11" +++ " ("
        +++ PyStr.str_of_int
              (Z.of_nat (length (entry_blocks (all_results_dict r))))
        +++ " hits)" /\
    msg_body (run_message r)
    = html_header +++ PyStr.nl
        +++ PyStr.join "<br/>"
              (map (render_section 7) (all_results_dict r))
        +++ PyStr.nl +++ html_tail /\
    length (concat (map (fun x : string * TermResults =>
                           report_subsection (fst x) (snd x) 7)
                      (all_results_dict r)))
    = length (all_results_dict r) + term_count (all_results_dict r)
      + empty_term_count (all_results_dict r)
      + 3 * length (entry_blocks (all_results_dict r)).
Proof.
  eexists. eexists.
  assert (Hrun : main Demo.esearch Demo.lookup Demo.publication
                   (Demo.cfg ["CRISPR"; "aging"] [] Demo.nature)
                   Demo.today (mkState 0 None [])
                 = (inr _, _)) by (vm_compute; reflexivity).
  split; [exact Hrun|].
  exact (subject_count_matches_rendered_entries Demo.World Demo.Exn
           Demo.Lookup Demo.esearch Demo.lookup Demo.publication
           _ _ _ _ _ Hrun).
Defined.

(** That run counts three entries. *)
Example three_hits :
  exists r s',
    main Demo.esearch Demo.lookup Demo.publication
      (Demo.cfg ["CRISPR"; "aging"] [] Demo.nature) Demo.today (mkState 0 None [])
    = (inr r, s') /\
    run_total_hits r = 3%Z /\
    length (entry_blocks (all_results_dict r)) = 3.
Proof.
  eexists. eexists. split; [vm_compute; reflexivity|].
  split; reflexivity.
Qed.

(** ** Scripted inputs for the further properties *)

(** A settings file with a block of keywords is not parsed: the blank
    line that ends the block raises. A file of comments is. *)
Example settings_file_raises :
  parse_search_file Demo.settings_file = inl IndexError /\
  parse_search_file ["# only a comment" +++ PyStr.nl; PyStr.nl]
  = inr OrderedDict.empty.
Proof. split; reflexivity. Qed.

Example parse_journal_topics_examples :
  parse_journal_topics ["Nature=[aging,longevity]"; "Cell = [ x , y ] "]
  = inr [("Nature", ["aging"; "longevity"]); ("Cell ", [" x "; " y "])] /\
  parse_journal_topics ["Science=[]"] = inr [("Science", [""])] /\
  parse_journal_topics ["Nature"] = inl ValueError /\
  parse_journal_topics ["a=b=c"] = inl ValueError.
Proof. repeat split; reflexivity. Qed.

Lemma parse_journal_topics_invariants_witness :
  exists d,
    parse_journal_topics ["Nature=[aging]"; "Cell=[]"; "Nature=[x,y]"]
    = inr d /\
    NoDup (OrderedDict.keys d) /\
    Forall (fun kv => snd kv <> []) d.
Proof.
  eexists. split; [reflexivity|].
  apply (parse_journal_topics_invariants
           ["Nature=[aging]"; "Cell=[]"; "Nature=[x,y]"]).
  reflexivity.
Defined.

Lemma parse_journal_topics_last_line_wins_witness :
  exists d,
    parse_journal_topics
      (["Nature=[aging]"] ++ ("Nature" +++ "=" +++ " [x,y]") :: ["Cell=[z]"])
    = inr d /\
    OrderedDict.get d "Nature" = Some ["x"; "y"].
Proof.
  eexists. split; [reflexivity|].
  apply (parse_journal_topics_last_line_wins ["Nature=[aging]"] ["Cell=[z]"]
           "Nature" " [x,y]").
  - reflexivity.
  - intros t' [H|[]]. discriminate H.
Defined.

Lemma parse_journal_topics_reads_back_witness :
  parse_journal_topics (map (journal_topic_line " " "") Demo.entries)
  = inr Demo.entries.
Proof.
  apply parse_journal_topics_reads_back.
  - reflexivity.
  - reflexivity.
  - repeat constructor; simpl; intuition discriminate.
  - repeat constructor; simpl; discriminate.
Defined.

(** The lines that the entries are written to. *)
Example journal_topic_lines :
  map (journal_topic_line " " "") Demo.entries
  = ["Nature= [aging,longevity]"; "Cell= [stem cells]"].
Proof. reflexivity. Qed.

Lemma get_url_last_doi_witness :
  get_url Demo.repr Demo.record = inr "dx.doi.org/10.2/y".
Proof.
  refine (proj1 (get_url_last_doi Demo.repr Demo.record Demo.article
                   (PList [Demo.elocation "pii" "S1";
                           Demo.elocation "doi" "10.1/x";
                           Demo.elocation "doi" "10.2/y";
                           Demo.elocation "pii" "S2"] None)
                   eq_refl eq_refl) _).
  repeat constructor; eexists; reflexivity.
Defined.

Lemma get_authors_names_witness :
  get_authors Demo.record = inr ["Smith A"; "Jones BC"].
Proof.
  refine (proj1 (get_authors_names Demo.record Demo.article
                   (PList [Demo.author "Smith" "A"; Demo.author "Jones" "BC"]
                      None)
                   eq_refl eq_refl) _ _).
  repeat constructor; repeat eexists; reflexivity.
Defined.

(** The article of a record with the given authors. *)
Example authors_without_a_name :
  let record_of authors :=
    PDict
      [("PubmedArticle",
        PList
          [PDict
             [("MedlineCitation",
               PDict [("Article", PDict [("AuthorList", PList authors None)]
                                    None)] None)] None] None)] None in
  (* a collective author has no last name *)
  get_authors
    (record_of [Demo.author "Smith" "A";
                PDict [("CollectiveName", PStr "Consortium" None)] None])
  = inl KeyError /\
  (* an author with a last name and no initials *)
  get_authors
    (record_of [Demo.author "Smith" "A";
                PDict [("LastName", PStr "Jones" None)] None;
                Demo.author "Brown" "C"])
  = inl KeyError /\
  unnamed (PDict [("LastName", PStr "Jones" None)] None) KeyError /\
  (* initials that are a list *)
  get_authors
    (record_of [PDict [("LastName", PStr "Jones" None);
                       ("Initials", PList [] None)] None])
  = inl TypeError.
Proof. repeat split. Qed.

Lemma build_result_dict_terms_witness :
  exists d s' (outss : list (list (Demo.Lookup * (Demo.Exn + Publication)))),
    build_result_dict Demo.lookup Demo.publication Demo.found "pubmed"
      (mkState 0 None [])
    = (inr d, s') /\
    Forall2 (fun kv outs => length outs = length (snd kv))
      (OrderedDict.items Demo.found) outss /\
    trace s'
    = trace (mkState (Exn := Demo.Exn) (Lookup := Demo.Lookup) 0 None [])
      ++ concat (map (term_lookup_events Demo.Exn Demo.Lookup "pubmed")
                   (combine (OrderedDict.items Demo.found) outss)) /\
    d = map (term_entry Demo.Exn Demo.Lookup)
          (combine (OrderedDict.items Demo.found) outss).
Proof.
  eexists. eexists.
  assert (Hrun : build_result_dict Demo.lookup Demo.publication Demo.found
                   "pubmed" (mkState 0 None [])
                 = (inr _, _)) by (vm_compute; reflexivity).
  destruct (build_result_dict_terms Demo.World Demo.Exn Demo.Lookup
              Demo.lookup Demo.publication Demo.found "pubmed" _ _ _
              ltac:(repeat constructor; simpl; intuition discriminate)
              Hrun) as (outss & H1 & H2 & H3).
  exists outss. split; [exact Hrun | split; [exact H1 | split]].
  - exact H2.
  - exact H3.
Defined.

(** What that run returns. *)
Example build_result_dict_example :
  fst (build_result_dict Demo.lookup Demo.publication Demo.found "pubmed"
         (mkState 0 None []))
  = inr [("CRISPR", [Demo.pub_T1]);
         ("aging", [mkPublication "dx.doi.org/333" "title 333" "J" "[]"])].
Proof. reflexivity. Qed.

Lemma every_publication_is_in_the_report_witness :
  (forall line, In line (entry_block Demo.pub_T1) ->
     occurs_in line
       (construct_email_body
          [("Keyword Searches", [("CRISPR", [Demo.pub_T1])])] 7)) /\
  occurs_in "dx.doi.org/10.1/x"
    (construct_email_body
       [("Keyword Searches", [("CRISPR", [Demo.pub_T1])])] 7) /\
  occurs_in "T1"
    (construct_email_body
       [("Keyword Searches", [("CRISPR", [Demo.pub_T1])])] 7) /\
  occurs_in "J1"
    (construct_email_body
       [("Keyword Searches", [("CRISPR", [Demo.pub_T1])])] 7) /\
  occurs_in "['Smith A']"
    (construct_email_body
       [("Keyword Searches", [("CRISPR", [Demo.pub_T1])])] 7).
Proof.
  apply (every_publication_is_in_the_report 7
           [("Keyword Searches", [("CRISPR", [Demo.pub_T1])])]
           "Keyword Searches" [("CRISPR", [Demo.pub_T1])] "CRISPR"
           [Demo.pub_T1] Demo.pub_T1);
    left; reflexivity.
Defined.


(** A search that raises: no lookup is made. *)
Example failed_search_makes_no_lookup :
  snd (main Demo.esearch Demo.lookup Demo.publication
         (Demo.cfg ["CRISPR"] ["Smith J"; "down"; "Jones B"] Demo.nature)
         Demo.today (mkState 0 None []))
  = mkState 3 (Some "me@example.org")
      [Esearch (query_args 7 "pubmed" "Most Recent" 20 "edat"
                  "CRISPR[Title/Abstract]") (inr ["111"; "222"]);
       Esearch (query_args 7 "pubmed" "Most Recent" 20 "edat"
                  "Smith J[Author]") (inr ["1"]);
       Esearch (query_args 7 "pubmed" "Most Recent" 20 "edat"
                  "down[Author]") (inl "HTTP Error 500")].
Proof. reflexivity. Qed.

Lemma failed_lookups_read_as_no_results_witness :
  exists r s',
    main Demo.esearch Demo.lookup Demo.publication_fails
      (Demo.cfg ["CRISPR"; "aging"] [] []) Demo.today (mkState 0 None [])
    = (inr r, s') /\
    run_total_hits r = 0%Z /\
    msg_subject (run_message r) = "pub scraper report - 2017/10/11 (0 hits)" /\
    all_results_dict r
    = [("Keyword Searches", [("CRISPR", []); ("aging", [])]);
       ("Author Searches", []); ("Journal and Topic Searches", [])].
Proof.
  eexists. eexists.
  assert (Hrun : main Demo.esearch Demo.lookup Demo.publication_fails
                   (Demo.cfg ["CRISPR"; "aging"] [] []) Demo.today
                   (mkState 0 None [])
                 = (inr _, _)) by (vm_compute; reflexivity).
  destruct (failed_lookups_read_as_no_results Demo.World Demo.Exn Demo.Lookup
              Demo.esearch Demo.lookup Demo.publication_fails _ _ _ _ _
              ltac:(intros l w; exists "bad record", (S w); reflexivity)
              Hrun) as (H1 & H2 & _).
  split; [exact Hrun | split; [exact H1 | split; [exact H2|]]].
  reflexivity.
Defined.
